(** * CaptionTeam: the attention scorer, the recurrent caption decoder and the
      caption embedder, embedded from [src/models/Attention.py] and
      [src/datasets/embedding.py].

    Layout: the definitions come first (exceptions, tensors, the two
    [nn.Module] classes, the embedder), the theorems after them.

    Scalars are real numbers: a tensor entry is an [R], so the arithmetic of
    the model is exact and rounding is outside of it.  The comparisons of the
    random draw of [numpy] with the constants [0.0] and [0.5] are comparisons
    of rationals. *)

From Stdlib Require Import Reals Lra QArith ZArith List Lia Bool.
From stdpp Require Import gmap strings.
From Equations Require Import Equations.
Import ListNotations.

(** ** Python exceptions *)

Inductive exn : Type :=
| TypeError            (* unpacking a value that is not iterable *)
| UnboundLocalError    (* reading a local variable before its assignment *)
| RuntimeError.        (* torch: the shapes of the operands do not agree *)

Inductive result (A : Type) : Type :=
| Ok (a : A)
| Raise (e : exn).
Arguments Ok {A} a.
Arguments Raise {A} e.

Definition bind {A B : Type} (r : result A) (k : A -> result B) : result B :=
  match r with
  | Ok a => k a
  | Raise e => Raise e
  end.

Notation "'let*' x ':=' r 'in' k" := (bind r (fun x => k))
  (at level 10, x pattern, r at level 100, k at level 200).

(** ** Tensors of rank two and three, and the torch operations of the scorer *)

Module Torch.

(** A tensor is its shape and its entries; the entries outside of the shape
    are never read. *)
Record tensor2 : Type := Tensor2 {
  rows : nat;
  cols : nat;
  at2 : nat -> nat -> R }.

Record tensor3 : Type := Tensor3 {
  dim0 : nat;
  dim1 : nat;
  dim2 : nat;
  at3 : nat -> nat -> nat -> R }.

(** What [squeeze] returns has a rank that depends on the shape. *)
Inductive tensor : Type :=
| T2 (x : tensor2)
| T3 (x : tensor3).

(** The sum [f 0 + ... + f (n-1)]. *)
Fixpoint rsum (n : nat) (f : nat -> R) : R :=
  match n with
  | O => 0%R
  | S m => (rsum m f + f m)%R
  end.

(** [nn.Linear(in_features, out_features)]: [weight] has the shape
    [(out_features, in_features)], [bias] the shape [(out_features)]. *)
Record Linear : Type := {
  in_features : nat;
  out_features : nat;
  weight : nat -> nat -> R;
  bias : nat -> R }.

(** The learned values of a linear layer. *)
Record parameters : Type := {
  p_weight : nat -> nat -> R;
  p_bias : nat -> R }.

Definition nn_Linear (i o : nat) (p : parameters) : Linear :=
  {| in_features := i; out_features := o;
     weight := p_weight p; bias := p_bias p |}.

(** Calling a linear layer on a tensor of rank three: it acts on the last
    axis, whose size has to be [in_features]. *)
Definition linear (l : Linear) (x : tensor3) : result tensor3 :=
  if dim2 x =? in_features l then
    Ok {| dim0 := dim0 x; dim1 := dim1 x; dim2 := out_features l;
          at3 := fun i j k =>
            (rsum (in_features l) (fun m => at3 x i j m * weight l k m)
             + bias l k)%R |}
  else Raise RuntimeError.

(** [x.unsqueeze(1)] on a tensor of rank two. *)
Definition unsqueeze1 (x : tensor2) : tensor3 :=
  {| dim0 := rows x; dim1 := 1; dim2 := cols x;
     at3 := fun i _ k => at2 x i k |}.

(** Broadcasting of one axis: equal sizes, or one of them is [1]. *)
Definition broadcast_dim (a b : nat) : result nat :=
  if a =? b then Ok a
  else if a =? 1 then Ok b
  else if b =? 1 then Ok a
  else Raise RuntimeError.

(** The index read on an axis of size [n] by the broadcast index [i]. *)
Definition bidx (n i : nat) : nat := if n =? 1 then 0 else i.

(** A binary pointwise operation with broadcasting. *)
Definition pointwise (f : R -> R -> R) (x y : tensor3) : result tensor3 :=
  let* d0 := broadcast_dim (dim0 x) (dim0 y) in
  let* d1 := broadcast_dim (dim1 x) (dim1 y) in
  let* d2 := broadcast_dim (dim2 x) (dim2 y) in
  Ok {| dim0 := d0; dim1 := d1; dim2 := d2;
        at3 := fun i j k =>
          f (at3 x (bidx (dim0 x) i) (bidx (dim1 x) j) (bidx (dim2 x) k))
            (at3 y (bidx (dim0 y) i) (bidx (dim1 y) j) (bidx (dim2 y) k)) |}.

Definition add : tensor3 -> tensor3 -> result tensor3 := pointwise Rplus.
Definition mul : tensor3 -> tensor3 -> result tensor3 := pointwise Rmult.

(** [torch.tanh]. *)
Definition tanh (x : tensor3) : tensor3 :=
  {| dim0 := dim0 x; dim1 := dim1 x; dim2 := dim2 x;
     at3 := fun i j k => Rtrigo_def.tanh (at3 x i j k) |}.

(** [F.softmax(x, dim=1)]. *)
Definition softmax1 (x : tensor3) : tensor3 :=
  {| dim0 := dim0 x; dim1 := dim1 x; dim2 := dim2 x;
     at3 := fun i j k =>
       (exp (at3 x i j k) / rsum (dim1 x) (fun j' => exp (at3 x i j' k)))%R |}.

(** [torch.sum(x, dim=1)]. *)
Definition sum1 (x : tensor3) : tensor2 :=
  {| rows := dim0 x; cols := dim2 x;
     at2 := fun i k => rsum (dim1 x) (fun j => at3 x i j k) |}.

(** [x.squeeze(dim=2)]: the last axis goes away when its size is [1], and
    the tensor is returned as it is otherwise. *)
Definition squeeze2 (x : tensor3) : tensor :=
  if dim2 x =? 1 then
    T2 {| rows := dim0 x; cols := dim1 x; at2 := fun i j => at3 x i j 0 |}
  else T3 x.

End Torch.

(** ** [class BahdanauAttention(nn.Module)] *)

Module BahdanauAttention.
Import Torch.

Record t : Type := {
  num_features : nat;
  hidden_dim : nat;
  output_dim : nat;
  W_a : Linear;
  U_a : Linear;
  v_a : Linear }.

(** The learned values of the three layers. *)
Record weights : Type := {
  theta_W : parameters;
  theta_U : parameters;
  theta_v : parameters }.

(** [__init__(self, num_features, hidden_dim, output_dim=1)].  It sees the
    three sizes only, and builds each layer from them. *)
Definition __init__ (num_features hidden_dim output_dim : nat) (theta : weights) : t :=
  {| num_features := num_features;
     hidden_dim := hidden_dim;
     output_dim := output_dim;
     W_a := nn_Linear num_features hidden_dim (theta_W theta);
     U_a := nn_Linear hidden_dim hidden_dim (theta_U theta);
     v_a := nn_Linear hidden_dim output_dim (theta_v theta) |}.

(** [context = torch.sum(attention_weight * features, dim=1)]. *)
Definition context_of (attention_weight features : tensor3) : result tensor2 :=
  let* weighted := mul attention_weight features in
  Ok (sum1 weighted).

(** [forward(self, features, hidden_size)]. *)
Definition forward (self : t) (features : tensor3) (hidden_size : tensor2)
  : result (tensor2 * tensor) :=
  let hidden_size := unsqueeze1 hidden_size in
  let* attention_1 := linear (W_a self) features in
  let* attention_2 := linear (U_a self) hidden_size in
  let* pre := add attention_1 attention_2 in
  let attention_tan := tanh pre in
  let* attention_score := linear (v_a self) attention_tan in
  let attention_weight := softmax1 attention_score in
  let* context := context_of attention_weight features in
  let attention_weight := squeeze2 attention_weight in
  Ok (context, attention_weight).

End BahdanauAttention.

(** ** [class DecoderLSTM(nn.Module)] *)

Module DecoderLSTM.

(** The torch operations the decoder calls.  [Tensor] is torch's tensor
    type, of whatever shape and element type.  An index tensor that holds
    one element is represented by the integer it holds: [long1 z] is the
    tensor [torch.tensor(z).unsqueeze(0).to(device)], and [top1 x] is the
    integer held by [x.topk(1)[1]] for [x] of rank one.  [to_device] is
    [.to(device)], for the module-level [device] that the file reads and
    does not define. *)
Class TorchOps (Tensor : Type) : Type := {
  zeros : nat -> nat -> nat -> Tensor;        (* torch.zeros(a, b, c) *)
  to_device : Tensor -> Tensor;               (* x.to(device) *)
  size : Tensor -> nat -> nat;                (* x.size(d) *)
  select1 : Tensor -> nat -> Tensor;          (* x[:, t, :] *)
  assign1 : Tensor -> nat -> Tensor -> Tensor;(* x[:, t, :] = v *)
  index0 : Tensor -> Tensor;                  (* x[0] *)
  cat1 : Tensor -> Tensor -> Tensor;          (* torch.cat([a, b], 1) *)
  div : Tensor -> Q -> Tensor;                (* x / q *)
  log_softmax1 : Tensor -> Tensor;            (* F.log_softmax(x, dim=1) *)
  topk1 : Tensor -> Tensor;                   (* x.topk(1)[1] *)
  top1 : Tensor -> Z;
  long1 : Z -> Tensor;
  squeeze1 : Tensor -> Tensor;                (* x.squeeze(1) *)
  mean1 : Tensor -> Tensor }.                 (* torch.mean(x, dim=1) *)

(** The module: its sizes and its layers.  A layer is the function its call
    computes; [attention] is the call of the scorer, on tensors of the shapes
    it accepts.  [drop k x] is the [k]-th call of the dropout layer in a run
    (each call draws a mask of its own, and is the identity in evaluation
    mode). *)
Record t (Tensor : Type) : Type := {
  num_features : nat;
  embedding_dim : nat;
  hidden_dim : nat;
  vocab_size : nat;
  embeddings : Tensor -> Tensor;
  lstm : Tensor -> Tensor * Tensor -> Tensor * Tensor;
  fc : Tensor -> Tensor;
  attention : Tensor -> Tensor -> Tensor * Tensor;
  drop : nat -> Tensor -> Tensor;
  init_h : Tensor -> Tensor;
  init_c : Tensor -> Tensor }.
Arguments num_features {Tensor} _.
Arguments embedding_dim {Tensor} _.
Arguments hidden_dim {Tensor} _.
Arguments vocab_size {Tensor} _.
Arguments embeddings {Tensor} _ _.
Arguments lstm {Tensor} _ _ _.
Arguments fc {Tensor} _ _.
Arguments attention {Tensor} _ _ _.
Arguments drop {Tensor} _ _ _.
Arguments init_h {Tensor} _ _.
Arguments init_c {Tensor} _ _.

(** [a < b] on the values of Python floats. *)
Definition Qltb (a b : Q) : bool := negb (Qle_bool b a).

(** [x, y = v]: unpacking [None] raises. *)
Definition unpack {A : Type} (v : option (A * A)) : result (A * A) :=
  match v with
  | Some p => Ok p
  | None => Raise TypeError
  end.

(** Reading a local variable, [None] when nothing was assigned to it. *)
Definition read {A : Type} (v : option A) : result A :=
  match v with
  | Some a => Ok a
  | None => Raise UnboundLocalError
  end.

Section Decoder.
Context {Tensor : Type} `{TorchOps Tensor}.
Variable self : t Tensor.

(** [self.sample_temp = 0.5], set by [__init__]. *)
Definition sample_temp : Q := 1 # 2.

(** [init_hidden(self, features)]: the body ends after the assignment of
    [h0], so the call returns [None]. *)
Definition init_hidden (features : Tensor) : option (Tensor * Tensor) :=
  let mean_annotations := mean1 features in
  let h0 := init_h self mean_annotations in
  None.

(** *** [forward]: the training-mode step loop *)

(** The local variables that live across the iterations of the loop of
    [forward].  [fed] is not a variable of the program: it logs the
    [word_embed] that each iteration concatenates with the context. *)
Record locals : Type := {
  sample_prob : Q;
  word_embed : option Tensor;
  h : Tensor;
  c : Tensor;
  outputs : Tensor;
  attention_weights : Tensor;
  fed : list Tensor }.

(** The body of [for t in range(seq_len)].  [draw] is what
    [np.random.random()] returns in this iteration. *)
Definition step (embed features : Tensor) (t : nat) (draw : Q) (s : locals)
  : result locals :=
  let sample_prob := if (t =? 0)%nat then 0%Q else (1 # 2)%Q in
  let use_sampling := Qltb draw sample_prob in
  let word_embed :=
    if eqb use_sampling false then Some (select1 embed t) else word_embed s in
  let '(context, attention_weight) := attention self features (h s) in
  let* word_embed_now := read word_embed in
  let input_concat := cat1 word_embed_now context in
  let '(h', c') := lstm self input_concat (h s, c s) in
  let h' := drop self t h' in
  let output := fc self h' in
  let word_embed :=
    if eqb use_sampling true then
      let scaled_output := div output sample_temp in
      let scoring := log_softmax1 scaled_output in
      let top_idx := topk1 scoring in
      Some (squeeze1 (embeddings self top_idx))
    else word_embed in
  Ok {| sample_prob := sample_prob;
        word_embed := word_embed;
        h := h';
        c := c';
        outputs := assign1 (outputs s) t output;
        attention_weights := assign1 (attention_weights s) t attention_weight;
        fed := fed s ++ [word_embed_now] |}.

(** The loop over the steps [ts]; [draws t] is the draw of step [t]. *)
Fixpoint steps (embed features : Tensor) (draws : nat -> Q) (ts : list nat)
  (s : locals) : result locals :=
  match ts with
  | [] => Ok s
  | t :: ts' =>
      let* s' := step embed features t (draws t) s in
      steps embed features draws ts' s'
  end.

(** The locals at the entry of the loop, for the hidden state [(h, c)]. *)
Definition entry (captions features : Tensor) (sample_prob : Q) (h c : Tensor)
  : locals :=
  let seq_len := size captions 1 in
  let feature_size := size features 1 in
  let batch_size := size features 0 in
  {| sample_prob := sample_prob;
     word_embed := None;
     h := h;
     c := c;
     outputs := to_device (zeros batch_size seq_len (vocab_size self));
     attention_weights := to_device (zeros batch_size seq_len feature_size);
     fed := [] |}.

(** The loop of [forward], entered with the embedded captions [embed] and
    the hidden state [(h, c)]. *)
Definition forward_loop (embed captions features : Tensor) (sample_prob : Q)
  (draws : nat -> Q) (h c : Tensor) : result locals :=
  steps embed features draws (seq 0 (size captions 1))
    (entry captions features sample_prob h c).

(** What [forward] does once [embed], [h] and [c] are bound: the loop and
    the [return]. *)
Definition forward_from (embed captions features : Tensor) (sample_prob : Q)
  (draws : nat -> Q) (h c : Tensor) : result (Tensor * Tensor) :=
  let* s := forward_loop embed captions features sample_prob draws h c in
  Ok (outputs s, attention_weights s).

(** [forward(self, captions, features, sample_prob=0.0)]. *)
Definition forward (captions features : Tensor) (sample_prob : Q)
  (draws : nat -> Q) : result (Tensor * Tensor) :=
  let embed := embeddings self captions in
  let* hc := unpack (init_hidden features) in
  let '(h, c) := hc in
  forward_from embed captions features sample_prob draws h c.

(** *** [greedy_search]: the decoding loop *)

Record decoding : Type := {
  sentence : list Z;
  weights : list Tensor;
  input_word : Z;
  g_h : Tensor;
  g_c : Tensor }.

(** The body of [while True], up to the test of the [break]. *)
Definition emit (features : Tensor) (s : decoding) : decoding :=
  let embedded_word := embeddings self (long1 (input_word s)) in
  let '(context, attention_weight) := attention self features (g_h s) in
  let input_concat := cat1 embedded_word context in
  let '(h', c') := lstm self input_concat (g_h s, g_c s) in
  let h' := drop self (length (sentence s)) h' in
  let output := fc self h' in
  let scoring := log_softmax1 output in
  let top_idx := top1 (index0 scoring) in
  {| sentence := sentence s ++ [top_idx];
     weights := weights s ++ [attention_weight];
     input_word := top_idx;
     g_h := h';
     g_c := c' |}.

(** [len(sentence) >= max_sentence or top_idx == 1], after [emit]. *)
Definition finished (max_sentence : Z) (s : decoding) : bool :=
  (Z.of_nat (length (sentence s)) >=? max_sentence)%Z || (input_word s =? 1)%Z.

Definition budget (max_sentence : Z) (s : decoding) : nat :=
  Z.to_nat (max_sentence - Z.of_nat (length (sentence s))).

Lemma emit_length (features : Tensor) (s : decoding) :
  length (sentence (emit features s)) = S (length (sentence s)).
Proof.
  unfold emit.
  destruct (attention self features (g_h s)) as [context attention_weight].
  destruct (lstm self _ _) as [h' c']. simpl.
  rewrite length_app. simpl. lia.
Qed.

(** [while True: ...; if ...: break]. *)
Equations? while_true (features : Tensor) (max_sentence : Z) (s : decoding)
  : decoding by wf (budget max_sentence s) lt :=
  while_true features max_sentence s
    with bool_dec (finished max_sentence (emit features s)) true => {
    | left _ := emit features s;
    | right _ := while_true features max_sentence (emit features s) }.
Proof.
  unfold budget. rewrite emit_length.
  assert (Hf : finished max_sentence (emit features s) = false)
    by (destruct (finished max_sentence (emit features s)); congruence).
  unfold finished in Hf. apply orb_false_iff in Hf. destruct Hf as [Hlen _].
  rewrite emit_length, Z.geb_leb in Hlen. apply Z.leb_gt in Hlen. lia.
Qed.

(** The loop of [greedy_search] and its [return], entered with the hidden
    state [(h, c)]. *)
Definition greedy_loop (features : Tensor) (max_sentence : Z) (h c : Tensor)
  : list Z * list Tensor :=
  let s := while_true features max_sentence
             {| sentence := []; weights := []; input_word := 0%Z;
                g_h := h; g_c := c |} in
  (sentence s, weights s).

(** [greedy_search(self, features, max_sentence=20)]. *)
Definition greedy_search (features : Tensor) (max_sentence : Z)
  : result (list Z * list Tensor) :=
  let* hc := unpack (init_hidden features) in
  let '(h, c) := hc in
  Ok (greedy_loop features max_sentence h c).

End Decoder.

End DecoderLSTM.


(** ** [class CaptionEmbedder] *)

Module CaptionEmbedder.

Section Embedder.
(** [DataFrame] and [Series] are the pandas types, [Model] is the type of the
    gensim model that [fit] trains. *)
Context {DataFrame Series Model : Type}.

Record t : Type := {
  model : option Model;
  w2i : option (gmap string Z);
  vector_size : Z;
  window : Z;
  min_count : Z;
  sg : Z }.

(** [__init__(self, vector_size=256, window=3, min_count=3, sg=1)]. *)
Definition __init__ (vector_size window min_count sg : Z) : t :=
  {| model := None; w2i := None;
     vector_size := vector_size; window := window;
     min_count := min_count; sg := sg |}.

(** [VocabBuilder2] is the class of [preprocess/vocab.py], which is not among
    the sources: the three methods that [process_df] calls are parameters.
    [make_dict] returns the dictionary from the words to their indices. *)
Variable tokenize_df : DataFrame -> DataFrame.
Variable make_dict : Series -> Z -> gmap string Z.
Variable indexize_df : DataFrame -> gmap string Z -> DataFrame.
Variable getitem : DataFrame -> string -> Series.    (* df[name] *)

(** [process_df(self, df)]: the embedder after the call, and the frame the
    call returns.  The frame is a value, so [df.copy()] is the frame. *)
Definition process_df (self : t) (df : DataFrame) : t * DataFrame :=
  let df := tokenize_df df in
  let d := make_dict (getitem df "tokenized") (min_count self) in
  let self := {| model := model self; w2i := Some d;
                 vector_size := vector_size self; window := window self;
                 min_count := min_count self; sg := sg self |} in
  let df := indexize_df df d in
  (self, df).

(** [Word2Vec(sentences, vector_size, window, min_count, sg)] and
    [FastText(...)]: the two trainers of gensim, and
    [series.apply(lambda x: x.split())]. *)
Context {Sentences : Type}.
Variable Word2Vec : Sentences -> Z -> Z -> Z -> Z -> Model.
Variable FastText : Sentences -> Z -> Z -> Z -> Z -> Model.
Variable split_each : Series -> Sentences.

(** [fit(self, df, method='fast')]: the embedder after the call, and the
    frame the call returns.  There is no [else] after the two methods. *)
Definition fit (self : t) (df : DataFrame) (method : string) : t * DataFrame :=
  let '(self, df) := process_df self df in
  let captions := split_each (getitem df "tokenized") in
  let trained (m : Model) : t :=
    {| model := Some m; w2i := w2i self;
       vector_size := vector_size self; window := window self;
       min_count := min_count self; sg := sg self |} in
  let self :=
    if String.eqb method "w2v" then
      trained (Word2Vec captions (vector_size self) (window self)
                 (min_count self) (sg self))
    else if String.eqb method "fast" then
      trained (FastText captions (vector_size self) (window self)
                 (min_count self) (sg self))
    else self in
  (self, df).

End Embedder.

End CaptionEmbedder.

(** ** A small decoder on integer entries

    A vocabulary of three words, start [0], end [1] and a word [2]; one
    example per batch; a tensor is the list of its entries.  An embedding has
    one entry, the index itself. *)

Module Small.
Import DecoderLSTM.

(** The first index of a largest entry. *)
Fixpoint argmax_from (best : Z) (besti : Z) (i : Z) (l : list Z) : Z :=
  match l with
  | [] => besti
  | x :: l' =>
      if (best <? x)%Z then argmax_from x i (i + 1)%Z l'
      else argmax_from best besti (i + 1)%Z l'
  end.

Definition argmax (l : list Z) : Z :=
  match l with
  | [] => 0%Z
  | x :: l' => argmax_from x 0%Z 1%Z l'
  end.

Definition total (l : list Z) : Z := fold_right Z.add 0%Z l.

#[export] Instance ops : TorchOps (list Z) := {
  zeros a b c := repeat 0%Z (a * b * c);
  to_device x := x;
  size x d := match d with O => 1 | _ => length x end;
  select1 x t := [nth t x 0%Z];
  assign1 x t v :=
    firstn (t * length v) x ++ v ++ skipn (S t * length v) x;
  index0 x := x;
  cat1 a b := a ++ b;
  div x q := map (fun z => (z * Zpos (Qden q) / Qnum q)%Z) x;
  log_softmax1 x := map (fun z => (z - fold_right Z.max 0 x)%Z) x;
  topk1 x := [argmax x];
  top1 x := argmax x;
  long1 z := [z];
  squeeze1 x := x;
  mean1 x := [(total x / Z.of_nat (length x))%Z] }.

(** A decoder whose output layer has the bias [logits] and no weight. *)
Definition biased (logits : list Z) : DecoderLSTM.t (list Z) :=
  {| num_features := 1;
     embedding_dim := 1;
     hidden_dim := 1;
     vocab_size := 3;
     embeddings := fun idx => idx;
     lstm := fun x hc => ([total x + total (fst hc)]%Z, snd hc);
     fc := fun _ => logits;
     attention := fun features _ => ([total features], map (fun _ => 1%Z) features);
     drop := fun _ x => x;
     init_h := fun x => x;
     init_c := fun x => x |}.

(** The output layer always prefers the end token, or always the word. *)
Definition always_end : DecoderLSTM.t (list Z) := biased [0; 1; 0]%Z.
Definition always_word : DecoderLSTM.t (list Z) := biased [0; 0; 1]%Z.

End Small.


(** ** The words of the specification about the context *)

Module ContextSpec.
Import Torch.

(** "Context = weighted sum of FeatureMap slots by AttentionWeights": entry
    [k] of the context of example [i]. *)
Definition weighted_sum (w : tensor2) (features : tensor3) (i k : nat) : R :=
  rsum (dim1 features) (fun j => (at2 w i j * at3 features i j k)%R).

(** The weights [w 0 .. w (n-1)] are one-hot at the slot [j0]. *)
Definition one_hot (n : nat) (w : nat -> R) (j0 : nat) : Prop :=
  j0 < n /\ w j0 = 1%R /\ forall j, j < n -> j <> j0 -> w j = 0%R.

End ContextSpec.

(** ** A small scorer: one example, two slots of two features *)

Module SmallScorer.
Import Torch.

Definition zero : parameters :=
  {| p_weight := fun _ _ => 0%R; p_bias := fun _ => 0%R |}.

Definition theta : BahdanauAttention.weights :=
  {| BahdanauAttention.theta_W := zero;
     BahdanauAttention.theta_U := zero;
     BahdanauAttention.theta_v := zero |}.

(** The slots [(1, 2)] and [(3, 4)]. *)
Definition features : tensor3 :=
  {| dim0 := 1; dim1 := 2; dim2 := 2;
     at3 := fun _ j k => INR (2 * j + k + 1) |}.

Definition hidden : tensor2 :=
  {| rows := 1; cols := 1; at2 := fun _ _ => 0%R |}.

(** Weights that are one-hot at the slot [1]. *)
Definition hot : tensor3 :=
  {| dim0 := 1; dim1 := 2; dim2 := 1;
     at3 := fun _ j _ => if j =? 1 then 1%R else 0%R |}.

End SmallScorer.


(** ** A small corpus: captions as lists of words *)

Module SmallEmbedder.
Import CaptionEmbedder.

(** The words that occur in at least [min_count] places of the captions,
    numbered from [2] in the order of their first occurrence, after the start
    and the end token. *)
Definition small_make_dict (captions : list (list string)) (min_count : Z)
  : gmap string Z :=
  let words := concat captions in
  let frequent (w : string) : bool :=
    (min_count <=? Z.of_nat (length (filter (fun v => v = w) words)))%Z in
  let kept := remove_dups (List.filter frequent words) in
  list_to_map
    (("<start>", 0%Z) :: ("<end>", 1%Z)
       :: zip kept (map (fun n => Z.of_nat (2 + n)) (seq 0 (length kept)))).

Definition captions : list (list string) :=
  [["a"; "cat"; "sits"]; ["a"; "cat"; "runs"]; ["the"; "cat"]].

End SmallEmbedder.

(** ** The score of a slot

    What lines 30 to 33 of [forward] compute for the slot [j] of the example
    [i], entry by entry: the layer [v_a] applied to the [tanh] of the sum of
    the projected slot and the projected hidden state. *)

Module Scores.
Import Torch BahdanauAttention.

Definition projected (l : Linear) (x : nat -> R) (m : nat) : R :=
  (rsum (in_features l) (fun n => x n * weight l m n) + bias l m)%R.

Definition score (self : BahdanauAttention.t) (features : tensor3)
  (hidden : tensor2) (i j : nat) : R :=
  projected (v_a self)
    (fun m => Rtrigo_def.tanh
                (projected (W_a self) (at3 features i j) m
                 + projected (U_a self) (at2 hidden i) m)%R)
    0.

End Scores.

(** ** Batches for the small scorer *)

Module SmallBatch.
Import Torch.

(** Two examples of two slots of two features. *)
Definition pair : tensor3 :=
  {| dim0 := 2; dim1 := 2; dim2 := 2;
     at3 := fun i j k => INR (4 * i + 2 * j + k) |}.

(** Hidden states for one and for three examples. *)
Definition one : tensor2 :=
  {| rows := 1; cols := 1; at2 := fun _ _ => 1%R |}.

Definition three : tensor2 :=
  {| rows := 3; cols := 1; at2 := fun i _ => INR i |}.

Definition two : tensor2 :=
  {| rows := 2; cols := 1; at2 := fun i _ => INR i |}.

(** Two examples with no slot. *)
Definition no_slot : tensor3 :=
  {| dim0 := 2; dim1 := 0; dim2 := 2; at3 := fun _ _ _ => 1%R |}.

(** The first example of [pair], alone and with the slots [(5, 5)]. *)
Definition other : tensor3 :=
  {| dim0 := 1; dim1 := 2; dim2 := 2;
     at3 := fun _ _ _ => 5%R |}.

(** Another bias for the layer [v_a]. *)
Definition shifted : nat -> R := fun _ => 7%R.

End SmallBatch.

(** * Theorems *)

(** ** The attention scorer *)

Section AttentionFacts.
Import Torch BahdanauAttention.
Local Open Scope R_scope.

Lemma rsum_ext (n : nat) (f g : nat -> R) :
  (forall j, (j < n)%nat -> f j = g j) -> rsum n f = rsum n g.
Proof.
  induction n as [|n IH]; intros Hfg; simpl.
  - reflexivity.
  - rewrite IH by (intros j Hj; apply Hfg; lia).
    rewrite (Hfg n) by lia. reflexivity.
Qed.

Lemma rsum_div (n : nat) (f : nat -> R) (d : R) :
  rsum n (fun j => f j / d) = rsum n f / d.
Proof.
  induction n as [|n IH]; simpl.
  - unfold Rdiv. ring.
  - rewrite IH. unfold Rdiv. ring.
Qed.

Lemma rsum_exp_pos (n : nat) (f : nat -> R) :
  (0 < n)%nat -> 0 < rsum n (fun j => exp (f j)).
Proof.
  intros Hn. destruct n as [|n]; [lia|]. clear Hn.
  induction n as [|n IH]; simpl in *.
  - pose proof (exp_pos (f 0%nat)). lra.
  - pose proof (exp_pos (f (S n))). lra.
Qed.

Lemma rsum_zero (n : nat) (f : nat -> R) :
  (forall j, (j < n)%nat -> f j = 0) -> rsum n f = 0.
Proof.
  induction n as [|n IH]; intros Hz; simpl; [reflexivity|].
  rewrite IH by (intros j Hj; apply Hz; lia).
  rewrite (Hz n) by lia. ring.
Qed.

(** A sum whose terms vanish away from [j0] is its term at [j0]. *)
Lemma rsum_single (n j0 : nat) (f : nat -> R) :
  (j0 < n)%nat -> (forall j, (j < n)%nat -> j <> j0 -> f j = 0) ->
  rsum n f = f j0.
Proof.
  induction n as [|n IH]; intros Hj Hz; [lia|]. simpl.
  destruct (Nat.eq_dec j0 n) as [->|Hne].
  - rewrite rsum_zero by (intros j Hj'; apply Hz; lia). ring.
  - rewrite IH; [|lia|intros j Hj' Hjne; apply Hz; [lia|exact Hjne]].
    rewrite (Hz n) by lia. ring.
Qed.

Lemma broadcast_dim_same (a : nat) : broadcast_dim a a = Ok a.
Proof. unfold broadcast_dim. rewrite Nat.eqb_refl. reflexivity. Qed.

Lemma broadcast_dim_one_r (a : nat) : broadcast_dim a 1 = Ok a.
Proof.
  unfold broadcast_dim. destruct (Nat.eqb_spec a 1) as [->|_]; reflexivity.
Qed.

Lemma broadcast_dim_one_l (b : nat) : broadcast_dim 1 b = Ok b.
Proof.
  unfold broadcast_dim. destruct (Nat.eqb_spec 1 b) as [<-|_]; reflexivity.
Qed.

Lemma bidx_lt (n i : nat) : (i < n)%nat -> bidx n i = i.
Proof.
  unfold bidx. destruct (Nat.eqb_spec n 1) as [->|_]; intros; lia.
Qed.

Lemma context_of_shape (aw features : tensor3) :
  dim0 aw = dim0 features -> dim1 aw = dim1 features -> dim2 aw = 1%nat ->
  exists ctx, context_of aw features = Ok ctx /\
    rows ctx = dim0 features /\ cols ctx = dim2 features /\
    forall i k, (i < dim0 features)%nat -> (k < dim2 features)%nat ->
      at2 ctx i k =
      rsum (dim1 features) (fun j => at3 aw i j 0 * at3 features i j k).
Proof.
  intros H0 H1 H2. unfold context_of, mul, pointwise.
  rewrite H0, H1, H2, !broadcast_dim_same, broadcast_dim_one_l. simpl.
  eexists. split; [reflexivity|]. simpl. split; [reflexivity|]. split; [reflexivity|].
  intros i k Hi Hk. apply rsum_ext. intros j Hj.
  change (bidx 1 k) with 0%nat.
  rewrite !bidx_lt by assumption. reflexivity.
Qed.

(** A well-shaped call returns: the weights are the softmax of scores with
    one channel, the context is computed from these weights. *)
Lemma forward_valid nf hd theta features hidden :
  dim2 features = nf -> cols hidden = hd -> rows hidden = dim0 features ->
  exists sc ctx,
    dim0 sc = dim0 features /\ dim1 sc = dim1 features /\ dim2 sc = 1%nat /\
    context_of (softmax1 sc) features = Ok ctx /\
    forward (__init__ nf hd 1 theta) features hidden
    = Ok (ctx, T2 {| rows := dim0 sc; cols := dim1 sc;
                     at2 := fun i j => at3 (softmax1 sc) i j 0 |}).
Proof.
  intros Hf Hh Hb. unfold forward, __init__, linear, nn_Linear; simpl.
  rewrite Hf, Hh, !Nat.eqb_refl. simpl.
  unfold add, pointwise; simpl.
  rewrite Hb, broadcast_dim_same, broadcast_dim_one_r, broadcast_dim_same. simpl.
  rewrite Nat.eqb_refl. simpl.
  match goal with |- context [softmax1 ?x] => set (sc := x) end.
  destruct (context_of_shape (softmax1 sc) features) as (ctx & Hctx & _);
    [reflexivity..|].
  exists sc, ctx. rewrite Hctx. simpl. auto.
Qed.


End AttentionFacts.

Section AttentionClaims.
Import Torch BahdanauAttention ContextSpec.
Local Open Scope R_scope.

(** C2. A call of [forward] on features of shape [(batch, num_slots,
    feature_dim)], with at least one slot, and a hidden state of shape
    [(batch, hidden_dim)] returns weights of shape [(batch, num_slots)] that
    are non-negative and sum to one over the slots, for each example. *)
Theorem attention_weights_distribution nf hd theta features hidden :
  dim2 features = nf -> cols hidden = hd -> rows hidden = dim0 features ->
  (0 < dim1 features)%nat ->
  exists context w,
    forward (__init__ nf hd 1 theta) features hidden = Ok (context, T2 w) /\
    rows w = dim0 features /\ cols w = dim1 features /\
    forall i, (i < dim0 features)%nat ->
      (forall j, (j < dim1 features)%nat -> 0 <= at2 w i j) /\
      rsum (dim1 features) (at2 w i) = 1.
Proof.
  intros Hf Hh Hb Hs.
  destruct (forward_valid nf hd theta features hidden Hf Hh Hb)
    as (sc & ctx & H0 & H1 & H2 & _ & Hfw).
  eexists ctx, _. split; [exact Hfw|]. simpl.
  split; [exact H0|]. split; [exact H1|].
  intros i Hi. rewrite H1.
  assert (Hpos : 0 < rsum (dim1 features) (fun j' => exp (at3 sc i j' 0)))
    by (apply rsum_exp_pos; exact Hs).
  split.
  - intros j Hj. apply Rlt_le. apply Rdiv_lt_0_compat; [apply exp_pos|exact Hpos].
  - rewrite (rsum_div _ (fun j => exp (at3 sc i j 0))).
    apply Rdiv_diag. lra.
Qed.

Lemma attention_weights_distribution_witness :
  exists context w,
    forward (__init__ 2 1 1 SmallScorer.theta) SmallScorer.features SmallScorer.hidden
    = Ok (context, T2 w) /\
    rows w = 1%nat /\ cols w = 2%nat /\
    forall i, (i < 1)%nat ->
      (forall j, (j < 2)%nat -> 0 <= at2 w i j) /\ rsum 2 (at2 w i) = 1.
Proof.
  apply (attention_weights_distribution 2 1 SmallScorer.theta
           SmallScorer.features SmallScorer.hidden);
    [reflexivity | reflexivity | reflexivity | simpl; lia].
Defined.

(** C3. On a well-shaped call the returned context is the sum over the slots
    of the slot vectors weighted by the returned weights; and the context
    that the code computes from weights that are one-hot at a slot is the
    feature vector of that slot. *)
Theorem context_is_weighted_sum nf hd theta features hidden :
  dim2 features = nf -> cols hidden = hd -> rows hidden = dim0 features ->
  (exists context w,
     forward (__init__ nf hd 1 theta) features hidden = Ok (context, T2 w) /\
     rows context = dim0 features /\ cols context = dim2 features /\
     forall i k, (i < dim0 features)%nat -> (k < dim2 features)%nat ->
       at2 context i k = weighted_sum w features i k) /\
  (forall aw,
     dim0 aw = dim0 features -> dim1 aw = dim1 features -> dim2 aw = 1%nat ->
     exists context,
       context_of aw features = Ok context /\
       forall i j0, (i < dim0 features)%nat ->
         one_hot (dim1 features) (fun j => at3 aw i j 0) j0 ->
         forall k, (k < dim2 features)%nat ->
           at2 context i k = at3 features i j0 k).
Proof.
  intros Hf Hh Hb. split.
  - destruct (forward_valid nf hd theta features hidden Hf Hh Hb)
      as (sc & ctx & H0 & H1 & H2 & Hctx & Hfw).
    destruct (context_of_shape (softmax1 sc) features H0 H1 H2)
      as (ctx' & Hctx' & Hr & Hc & Hsum).
    assert (ctx' = ctx) by congruence. subst ctx'.
    eexists ctx, _. split; [exact Hfw|].
    split; [exact Hr|]. split; [exact Hc|].
    intros i k Hi Hk. rewrite (Hsum i k Hi Hk). reflexivity.
  - intros aw H0 H1 H2.
    destruct (context_of_shape aw features H0 H1 H2)
      as (ctx & Hctx & _ & _ & Hsum).
    exists ctx. split; [exact Hctx|].
    intros i j0 Hi (Hj0 & Hone & Hzero) k Hk.
    rewrite (Hsum i k Hi Hk).
    rewrite (rsum_single _ j0) by
      (try exact Hj0; intros j Hj Hne; rewrite (Hzero j Hj Hne); ring).
    rewrite Hone. ring.
Qed.

Lemma context_is_weighted_sum_witness :
  (exists context w,
     forward (__init__ 2 1 1 SmallScorer.theta) SmallScorer.features SmallScorer.hidden
     = Ok (context, T2 w) /\
     forall k, (k < 2)%nat ->
       at2 context 0 k = weighted_sum w SmallScorer.features 0 k) /\
  (exists context,
     context_of SmallScorer.hot SmallScorer.features = Ok context /\
     forall k, (k < 2)%nat -> at2 context 0 k = at3 SmallScorer.features 0 1 k).
Proof.
  destruct (context_is_weighted_sum 2 1 SmallScorer.theta
              SmallScorer.features SmallScorer.hidden
              eq_refl eq_refl eq_refl) as [Hsum Hhot].
  split.
  - destruct Hsum as (context & w & Hfw & _ & _ & Hs).
    exists context, w. split; [exact Hfw|].
    intros k Hk. apply Hs; simpl; lia.
  - destruct (Hhot SmallScorer.hot eq_refl eq_refl eq_refl) as (context & Hctx & Hk).
    exists context. split; [exact Hctx|].
    intros k Hlt. apply (Hk 0%nat 1%nat); [simpl; lia | | exact Hlt].
    split; [simpl; lia|]. split; [reflexivity|].
    intros j Hj Hne. simpl in Hj.
    destruct j as [|[|j]]; [reflexivity | congruence | lia].
Defined.

(** C7, as the claim states it, fails: the construction of a scorer for
    three features returns the scorer, and the call on features of size two
    is what raises. *)
Lemma shape_mismatch_surfaces_at_call :
  exists self,
    __init__ 3 1 1 SmallScorer.theta = self /\
    forward self SmallScorer.features SmallScorer.hidden = Raise RuntimeError.
Proof. eexists. split; reflexivity. Qed.

(** C7, amended.  [__init__] receives the three sizes only and builds three
    layers that fit each other; when the feature size of the features or the
    size of the hidden state differs from the sizes the scorer was built
    with, it is the call of [forward] that raises. *)
Theorem shape_mismatch_raised_by_forward nf hd od theta features hidden :
  dim2 features <> nf \/ cols hidden <> hd ->
  let self := __init__ nf hd od theta in
  in_features (W_a self) = nf /\
  out_features (W_a self) = in_features (v_a self) /\
  out_features (U_a self) = in_features (v_a self) /\
  in_features (U_a self) = hd /\
  forward self features hidden = Raise RuntimeError.
Proof.
  intros Hbad self. repeat (split; [reflexivity|]).
  unfold forward, self, __init__, linear, nn_Linear; simpl.
  destruct (Nat.eqb_spec (dim2 features) nf) as [Hf|Hf]; [|reflexivity]. simpl.
  destruct (Nat.eqb_spec (cols hidden) hd) as [Hh|Hh]; [|reflexivity].
  destruct Hbad; contradiction.
Qed.

Lemma shape_mismatch_raised_by_forward_witness :
  forward (__init__ 3 1 1 SmallScorer.theta) SmallScorer.features SmallScorer.hidden
  = Raise RuntimeError.
Proof.
  apply (shape_mismatch_raised_by_forward 3 1 1 SmallScorer.theta
           SmallScorer.features SmallScorer.hidden).
  left. simpl. lia.
Defined.

End AttentionClaims.

(** ** The decoder *)

Section DecoderFacts.
Import DecoderLSTM.
Context {Tensor : Type} `{TorchOps Tensor}.
Variable self : DecoderLSTM.t Tensor.

(** The probability that the loop of [forward] assigns at the step [t]. *)
Local Abbreviation prob t := (if (t =? 0)%nat then 0%Q else (1 # 2)%Q).

Lemma Qltb_zero (q : Q) : (0 <= q)%Q -> Qltb q 0 = false.
Proof.
  intros Hq. unfold Qltb. apply negb_false_iff. apply Qle_bool_iff. exact Hq.
Qed.

(** A step whose flip fails feeds the ground truth of its position. *)
Lemma step_ground_truth embed features t draw s :
  Qltb draw (prob t) = false ->
  exists s', step self embed features t draw s = Ok s' /\
    fed s' = fed s ++ [select1 embed t] /\
    word_embed s' = Some (select1 embed t).
Proof.
  intros Hflip. unfold step. rewrite Hflip. simpl.
  destruct (attention self features (h s)) as [context attention_weight]. simpl.
  destruct (lstm self _ _) as [h' c']. simpl.
  eexists. split; [reflexivity|]. simpl. split; reflexivity.
Qed.

(** A step whose flip succeeds feeds what [word_embed] holds at its entry. *)
Lemma step_sampling embed features t draw s w :
  Qltb draw (prob t) = true -> word_embed s = Some w ->
  exists s' w', step self embed features t draw s = Ok s' /\
    fed s' = fed s ++ [w] /\ word_embed s' = Some w'.
Proof.
  intros Hflip Hw. unfold step. rewrite Hflip, Hw. simpl.
  destruct (attention self features (h s)) as [context attention_weight]. simpl.
  destruct (lstm self _ _) as [h' c']. simpl.
  eexists _, _. split; [reflexivity|]. simpl. split; reflexivity.
Qed.

(** A step does not raise once [word_embed] is bound, and leaves it bound. *)
Lemma step_bound embed features t draw s w :
  word_embed s = Some w ->
  exists s' x w', step self embed features t draw s = Ok s' /\
    fed s' = fed s ++ [x] /\ word_embed s' = Some w'.
Proof.
  intros Hw. destruct (Qltb draw (prob t)) eqn:Hflip.
  - destruct (step_sampling embed features t draw s w Hflip Hw)
      as (s' & w' & Hs & Hfed & Hw').
    exists s', w, w'. auto.
  - destruct (step_ground_truth embed features t draw s Hflip)
      as (s' & Hs & Hfed & Hw').
    exists s', (select1 embed t), (select1 embed t). auto.
Qed.

Lemma steps_app embed features draws ts1 ts2 s :
  steps self embed features draws (ts1 ++ ts2) s =
  let* s' := steps self embed features draws ts1 s in
  steps self embed features draws ts2 s'.
Proof.
  revert s. induction ts1 as [|t ts1 IH]; intros s; simpl; [reflexivity|].
  destruct (step self embed features t (draws t) s) as [s'|e]; simpl;
    [apply IH | reflexivity].
Qed.

(** The steps after the first one: they extend the log by one entry each. *)
Lemma steps_bound embed features draws ts s w :
  word_embed s = Some w ->
  exists s' l w', steps self embed features draws ts s = Ok s' /\
    fed s' = fed s ++ l /\ length l = length ts /\ word_embed s' = Some w'.
Proof.
  revert s w. induction ts as [|t ts IH]; intros s w Hw; simpl.
  - exists s, [], w. rewrite app_nil_r. auto.
  - destruct (step_bound embed features t (draws t) s w Hw)
      as (s1 & x & w1 & Hs1 & Hfed1 & Hw1).
    rewrite Hs1. simpl.
    destruct (IH s1 w1 Hw1) as (s' & l & w' & Hs' & Hfed' & Hlen & Hw').
    exists s', (x :: l), w'. rewrite Hs', Hfed', Hfed1, <- app_assoc. simpl.
    auto.
Qed.

(** The first [n] steps of the loop, from its entry. *)
Lemma steps_prefix embed captions features sample_prob draws h0 c0 n :
  (0 <= draws 0%nat)%Q ->
  exists s, steps self embed features draws (seq 0 n)
              (entry self captions features sample_prob h0 c0) = Ok s /\
    length (fed s) = n /\
    (n = 0%nat -> s = entry self captions features sample_prob h0 c0) /\
    (0 < n -> nth_error (fed s) 0 = Some (select1 embed 0) /\
              exists w, word_embed s = Some w).
Proof.
  intros Hdraw. destruct n as [|n].
  - eexists. split; [reflexivity|]. simpl. repeat split; auto; lia.
  - change (seq 0 (S n)) with ([0%nat] ++ seq 1 n). rewrite steps_app. simpl.
    destruct (step_ground_truth embed features 0 (draws 0%nat)
                (entry self captions features sample_prob h0 c0))
      as (s1 & Hs1 & Hfed1 & Hw1); [apply Qltb_zero; exact Hdraw|].
    rewrite Hs1. simpl.
    destruct (steps_bound embed features draws (seq 1 n) s1 _ Hw1)
      as (s' & l & w' & Hs' & Hfed' & Hlen & Hw').
    exists s'. split; [exact Hs'|]. rewrite Hfed', Hfed1. simpl.
    rewrite Hlen, length_seq. repeat split; eauto; lia.
Qed.

(** C4, on the code: [init_hidden] returns [None], for every feature map,
    and so not the pair of the two projections of the mean. *)
Theorem init_hidden_returns_None (features : Tensor) :
  init_hidden self features = None /\
  init_hidden self features
  <> Some (init_h self (mean1 features), init_c self (mean1 features)).
Proof. split; [reflexivity | discriminate]. Qed.

(** C5. In the step loop of [forward], entered with any hidden state and any
    [sample_prob], the step [0] is fed the embedding of the first token of
    the captions, whatever [np.random.random()] draws in [[0, 1)]. *)
Theorem first_step_feeds_ground_truth captions features sample_prob draws h0 c0 :
  0 < size captions 1 -> (0 <= draws 0%nat)%Q ->
  let embed := embeddings self captions in
  exists s,
    forward_loop self embed captions features sample_prob draws h0 c0 = Ok s /\
    length (fed s) = size captions 1 /\
    nth_error (fed s) 0 = Some (select1 embed 0).
Proof.
  intros Hlen Hdraw embed. unfold forward_loop.
  destruct (steps_prefix embed captions features sample_prob draws h0 c0
              (size captions 1) Hdraw) as (s & Hs & Hfed & _ & Hpos).
  exists s. split; [exact Hs|]. split; [exact Hfed|].
  apply Hpos. exact Hlen.
Qed.

(** C6, on the code: when the flip of the step [t] fails and the flip of the
    step [t + 1] succeeds, the step [t + 1] is fed the ground truth of the
    position [t] again: it is not fed a token chosen from the output of the
    step [t]. *)
Theorem sampling_step_feeds_stale_ground_truth
  captions features sample_prob draws h0 c0 t :
  S t < size captions 1 -> (0 <= draws 0%nat)%Q ->
  Qltb (draws t) (prob t) = false ->
  Qltb (draws (S t)) (1 # 2) = true ->
  let embed := embeddings self captions in
  exists s,
    forward_loop self embed captions features sample_prob draws h0 c0 = Ok s /\
    nth_error (fed s) (S t) = Some (select1 embed t).
Proof.
  intros Hlen Hdraw Hfail Hflip embed. unfold forward_loop.
  assert (Hseq : seq 0 (size captions 1)
                 = seq 0 t ++ [t] ++ [S t] ++ seq (S (S t)) (size captions 1 - S (S t))).
  { replace (size captions 1) with (t + (1 + (1 + (size captions 1 - S (S t)))))
      at 1 by lia.
    rewrite !seq_app. simpl. repeat f_equal; lia. }
  rewrite Hseq, !steps_app.
  destruct (steps_prefix embed captions features sample_prob draws h0 c0 t Hdraw)
    as (s1 & Hs1 & Hfed1 & _ & _).
  rewrite Hs1. cbn [steps bind app].
  destruct (step_ground_truth embed features t (draws t) s1 Hfail)
    as (s2 & Hs2 & Hfed2 & Hw2).
  rewrite Hs2. cbn [steps bind app].
  destruct (step_sampling embed features (S t) (draws (S t)) s2 _ Hflip Hw2)
    as (s3 & w3 & Hs3 & Hfed3 & Hw3).
  rewrite Hs3. cbn [steps bind app].
  destruct (steps_bound embed features draws
              (seq (S (S t)) (size captions 1 - S (S t))) s3 _ Hw3)
    as (s4 & l & w4 & Hs4 & Hfed4 & _ & _).
  exists s4. split; [exact Hs4|].
  rewrite Hfed4, Hfed3, Hfed2, <- !app_assoc.
  rewrite nth_error_app2 by lia.
  replace (S t - length (fed s1)) with 1 by lia. reflexivity.
Qed.

(** Two entries of the loop that differ in [sample_prob] only. *)
Lemma step_ignores_sample_prob embed features t draw s1 s2 :
  word_embed s1 = word_embed s2 -> h s1 = h s2 -> c s1 = c s2 ->
  outputs s1 = outputs s2 -> attention_weights s1 = attention_weights s2 ->
  fed s1 = fed s2 ->
  step self embed features t draw s1 = step self embed features t draw s2.
Proof.
  intros Hw Hh Hc Ho Ha Hf. unfold step.
  rewrite Hw, Hh, Hc, Ho, Ha, Hf. reflexivity.
Qed.

(** C9. The [sample_prob] that the caller passes has no influence: with the
    same captions, features, layers and draws, [forward] returns the same,
    and so does its loop with its [return], entered with any hidden state. *)
Theorem forward_ignores_sample_prob captions features p1 p2 draws :
  forward self captions features p1 draws = forward self captions features p2 draws /\
  forall embed h0 c0,
    forward_from self embed captions features p1 draws h0 c0
    = forward_from self embed captions features p2 draws h0 c0.
Proof.
  split; [reflexivity|].
  intros embed h0 c0. unfold forward_from, forward_loop.
  destruct (size captions 1) as [|n]; [reflexivity|].
  change (seq 0 (S n)) with ([0%nat] ++ seq 1 n). rewrite !steps_app.
  cbn [steps].
  rewrite (step_ignores_sample_prob _ _ _ _
             (entry self captions features p1 h0 c0)
             (entry self captions features p2 h0 c0)) by reflexivity.
  reflexivity.
Qed.

(** *** The decoding loop *)

Lemma emit_spec features s :
  exists tok aw,
    sentence (emit self features s) = sentence s ++ [tok] /\
    weights (emit self features s) = weights s ++ [aw] /\
    input_word (emit self features s) = tok.
Proof.
  unfold emit.
  destruct (attention self features (g_h s)) as [context attention_weight].
  destruct (lstm self _ _) as [h' c']. simpl. eauto.
Qed.

(** What the loop appends to the sentence and to the weights. *)
Lemma while_true_spec features max_sentence s :
  let s' := while_true self features max_sentence s in
  exists l,
    sentence s' = sentence s ++ l /\
    l <> [] /\
    length (weights s') = length (weights s) + length l /\
    (Z.of_nat (length (sentence s'))
     <= Z.max max_sentence (Z.of_nat (length (sentence s)) + 1))%Z /\
    (forall i, S i < length l -> nth i l 0%Z <> 1%Z) /\
    ((Z.of_nat (length (sentence s')) < max_sentence)%Z -> List.last l 0%Z = 1%Z).
Proof.
  funelim (while_true self features max_sentence s).
  - clear Heq Heqcall. destruct (emit_spec features s) as (tok & aw & Hsen & Hw & Hin).
    exists [tok]. rewrite Hsen, Hw, !length_app. simpl.
    split; [reflexivity|]. split; [discriminate|]. split; [reflexivity|].
    split; [lia|]. split; [intros i Hi; lia|].
    intros Hlt. unfold finished in e. rewrite Hsen, Hin, length_app in e.
    simpl in e. apply orb_true_iff in e. destruct e as [e|e].
    + rewrite Z.geb_leb in e. apply Z.leb_le in e. lia.
    + apply Z.eqb_eq in e. exact e.
  - clear Heq Heqcall.
    match goal with IH : exists _, _ |- _ =>
      destruct IH as (l & Hl & Hne & Hwl & Hmax & Hmid & Hend) end.
    destruct (emit_spec features s) as (tok & aw & Hsen & Hw & Hin).
    assert (Hf : finished max_sentence (emit self features s) = false)
      by (destruct (finished max_sentence (emit self features s)); congruence).
    unfold finished in Hf. rewrite Hsen, Hin, length_app in Hf. simpl in Hf.
    apply orb_false_iff in Hf. destruct Hf as [Hcap Htok].
    rewrite Z.geb_leb in Hcap. apply Z.leb_gt in Hcap.
    apply Z.eqb_neq in Htok.
    rewrite Hl in Hmax, Hend. rewrite Hsen in Hl, Hmax, Hend.
    rewrite Hw in Hwl. rewrite Hl, Hwl.
    rewrite <- app_assoc in Hmax, Hend. rewrite <- app_assoc.
    rewrite !length_app in *. simpl in *.
    exists (tok :: l).
    split; [reflexivity|]. split; [discriminate|].
    simpl. split; [lia|]. split; [lia|]. split.
    + intros [|i] Hi; [exact Htok|]. apply Hmid. lia.
    + intros Hlt. destruct l as [|x l]; [congruence|]. apply Hend. exact Hlt.
Qed.

(** C1, amended.  The loop of [greedy_search], entered with any hidden state,
    returns for every [max_sentence]: the sentence has at least one token and
    at most [max 1 max_sentence]; no token before the last is the end token
    [1]; and a sentence shorter than [max_sentence] ends with the token [1]. *)
Theorem greedy_loop_bounded features max_sentence h0 c0 :
  let sentence := fst (greedy_loop self features max_sentence h0 c0) in
  1 <= length sentence /\
  (Z.of_nat (length sentence) <= Z.max 1 max_sentence)%Z /\
  (forall i, S i < length sentence -> nth i sentence 0%Z <> 1%Z) /\
  ((Z.of_nat (length sentence) < max_sentence)%Z -> List.last sentence 0%Z = 1%Z).
Proof.
  unfold greedy_loop. cbn [fst].
  match goal with |- context [while_true self features max_sentence ?s0] =>
    destruct (while_true_spec features max_sentence s0)
      as (l & Hl & Hne & _ & Hmax & Hmid & Hend)
  end.
  simpl in Hl, Hmax. rewrite Hl in *.
  split; [destruct l; [congruence | simpl; lia]|].
  split; [lia|]. split; assumption.
Qed.

(** C10, on the code: [greedy_search] raises [TypeError] for every feature
    map and every [max_sentence], at the unpacking of what [init_hidden]
    returns.  Its loop, entered with any hidden state, returns what the claim
    says: a sentence that is not empty, one weight per token, and the end
    token [1] in the last position only. *)
Theorem greedy_search_raises_TypeError features max_sentence :
  greedy_search self features max_sentence = Raise TypeError /\
  forall h0 c0,
    let '(sentence, weights) := greedy_loop self features max_sentence h0 c0 in
    sentence <> [] /\ length weights = length sentence /\
    forall i, nth_error sentence i = Some 1%Z -> S i = length sentence.
Proof.
  split; [reflexivity|].
  intros h0 c0. unfold greedy_loop.
  match goal with |- context [while_true self features max_sentence ?s0] =>
    destruct (while_true_spec features max_sentence s0)
      as (l & Hl & Hne & Hw & _ & Hmid & _)
  end.
  simpl in Hl, Hw. rewrite Hl, Hw.
  split; [exact Hne|]. split; [reflexivity|].
  intros i Hi.
  assert (Hlt : i < length l) by (apply nth_error_Some; congruence).
  destruct (Nat.eq_dec (S i) (length l)) as [Heq|Hneq]; [exact Heq|].
  exfalso. apply (Hmid i); [lia|].
  apply nth_error_nth with (d := 0%Z) in Hi. exact Hi.
Qed.

End DecoderFacts.

Section DecoderExamples.
Import DecoderLSTM Small.

Lemma first_step_feeds_ground_truth_witness :
  exists s,
    forward_loop always_end [0; 2]%Z [0; 2]%Z [1; 2]%Z 1%Q (fun _ => 3 # 10) [0]%Z [0]%Z
    = Ok s /\
    length (fed s) = 2 /\
    nth_error (fed s) 0 = Some [0%Z].
Proof.
  refine (first_step_feeds_ground_truth always_end [0; 2]%Z [1; 2]%Z 1%Q
            (fun _ => 3 # 10) [0]%Z [0]%Z _ _).
  - simpl. lia.
  - unfold Qle. simpl. lia.
Defined.

(** The captions [start, word], the decoder that prefers the end token, and
    draws of [0.3]: the step [1] samples, and is fed the embedding [[0]] of
    the position [0], where the ground truth of the position [1] is [[2]] and
    the token chosen from the output of the step [0] has the embedding
    [[1]] (the output layer of this decoder returns its bias on every
    input). *)
Lemma sampling_step_feeds_stale_ground_truth_witness :
  (exists s,
     forward_loop always_end [0; 2]%Z [0; 2]%Z [1; 2]%Z 0%Q (fun _ => 3 # 10) [0]%Z [0]%Z
     = Ok s /\
     nth_error (fed s) 1 = Some [0%Z]) /\
  select1 (embeddings always_end [0; 2]%Z) 1 = [2%Z] /\
  squeeze1 (embeddings always_end
              (topk1 (log_softmax1 (div (fc always_end [0]%Z) sample_temp))))
  = [1%Z].
Proof.
  split; [|split; reflexivity].
  refine (sampling_step_feeds_stale_ground_truth always_end [0; 2]%Z [1; 2]%Z
            0%Q (fun _ => 3 # 10) [0]%Z [0]%Z 0 _ _ _ _).
  - simpl. lia.
  - unfold Qle. simpl. lia.
  - reflexivity.
  - reflexivity.
Defined.

Lemma greedy_loop_bounded_witness :
  (let sentence := fst (greedy_loop always_end [1; 2]%Z 5 [0]%Z [0]%Z) in
   (Z.of_nat (length sentence) < 5)%Z /\ List.last sentence 0%Z = 1%Z) /\
  (let sentence := fst (greedy_loop always_word [1; 2]%Z 3 [0]%Z [0]%Z) in
   S 0 < length sentence /\ nth 0 sentence 0%Z <> 1%Z).
Proof.
  split; intros sentence.
  - assert (Hlt : (Z.of_nat (length sentence) < 5)%Z) by (vm_compute; reflexivity).
    split; [exact Hlt|].
    exact (proj2 (proj2 (proj2
             (greedy_loop_bounded always_end [1; 2]%Z 5 [0]%Z [0]%Z))) Hlt).
  - assert (Hlt : S 0 < length sentence) by (vm_compute; lia).
    split; [exact Hlt|].
    exact (proj1 (proj2 (proj2
             (greedy_loop_bounded always_word [1; 2]%Z 3 [0]%Z [0]%Z))) 0 Hlt).
Defined.

Lemma greedy_search_raises_TypeError_witness :
  greedy_search always_end [1; 2]%Z 5 = Raise TypeError /\
  (let sentence := fst (greedy_loop always_end [1; 2]%Z 5 [0]%Z [0]%Z) in
   nth_error sentence 0 = Some 1%Z /\ 1 = length sentence).
Proof.
  destruct (greedy_search_raises_TypeError always_end [1; 2]%Z 5) as [Hraise Hloop].
  split; [exact Hraise|]. intros sentence.
  specialize (Hloop [0]%Z [0]%Z).
  assert (Hs : nth_error sentence 0 = Some 1%Z) by reflexivity.
  split; [exact Hs|].
  unfold sentence in *.
  destruct (greedy_loop always_end [1; 2]%Z 5 [0]%Z [0]%Z) as [sen ws].
  destruct Hloop as (_ & _ & Hend). exact (Hend 0 Hs).
Defined.

(** C1, as the claim states it, fails.  With [max_sentence = 0] the loop
    returns one token, more than [max_sentence]; and with [max_sentence = 1]
    and a decoder that prefers the end token, the sentence [[1]] has
    [max_sentence] tokens, so the loop did not end before the bound, though
    the token it produced is the end token. *)
Lemma greedy_loop_bound_counterexample :
  (let sentence := fst (greedy_loop always_word [1; 2]%Z 0 [0]%Z [0]%Z) in
   sentence = [2%Z] /\ ~ (Z.of_nat (length sentence) <= 0)%Z) /\
  (let sentence := fst (greedy_loop always_end [1; 2]%Z 1 [0]%Z [0]%Z) in
   sentence = [1%Z] /\ List.last sentence 0%Z = 1%Z /\
   ~ (Z.of_nat (length sentence) < 1)%Z).
Proof.
  split; intros sentence.
  - assert (Hs : sentence = [2%Z]) by reflexivity.
    split; [exact Hs|]. rewrite Hs. simpl. lia.
  - assert (Hs : sentence = [1%Z]) by reflexivity.
    split; [exact Hs|]. rewrite Hs. simpl. split; [reflexivity | lia].
Qed.

End DecoderExamples.

(** ** More on the attention scorer *)

Section AttentionMore.
Import Torch BahdanauAttention Scores.
Local Open Scope R_scope.

Lemma rsum_le (n : nat) (f g : nat -> R) :
  (forall j, (j < n)%nat -> f j <= g j) -> rsum n f <= rsum n g.
Proof.
  induction n as [|n IH]; intros Hfg; simpl; [lra|].
  assert (rsum n f <= rsum n g) by (apply IH; intros j Hj; apply Hfg; lia).
  assert (f n <= g n) by (apply Hfg; lia). lra.
Qed.

Lemma rsum_scale (n : nat) (f : nat -> R) (a : R) :
  rsum n (fun j => f j * a) = rsum n f * a.
Proof.
  induction n as [|n IH]; simpl; [ring|]. rewrite IH. ring.
Qed.

(** A well-shaped call returns the softmax of the scores, and the context
    computed from it. *)
Lemma forward_scores nf hd theta features hidden :
  dim2 features = nf -> cols hidden = hd -> rows hidden = dim0 features ->
  let self := __init__ nf hd 1 theta in
  exists sc ctx,
    dim0 sc = dim0 features /\ dim1 sc = dim1 features /\ dim2 sc = 1%nat /\
    (forall i j, (i < dim0 features)%nat -> (j < dim1 features)%nat ->
       at3 sc i j 0 = score self features hidden i j) /\
    context_of (softmax1 sc) features = Ok ctx /\
    forward self features hidden
    = Ok (ctx, T2 {| rows := dim0 sc; cols := dim1 sc;
                     at2 := fun i j => at3 (softmax1 sc) i j 0 |}).
Proof.
  intros <- <- Hb self.
  unfold forward, self, __init__, linear, nn_Linear; simpl.
  rewrite !Nat.eqb_refl. simpl.
  unfold add, pointwise; simpl.
  rewrite Hb, broadcast_dim_same, broadcast_dim_one_r, broadcast_dim_same. simpl.
  rewrite Nat.eqb_refl. simpl.
  match goal with |- context [softmax1 ?x] => set (sc := x) end.
  destruct (context_of_shape (softmax1 sc) features) as (ctx & Hctx & _);
    [reflexivity..|].
  exists sc, ctx. rewrite Hctx. simpl.
  split; [reflexivity|]. split; [reflexivity|]. split; [reflexivity|].
  split; [|split; reflexivity].
  intros i j Hi Hj. unfold score, projected. simpl.
  f_equal. apply rsum_ext. intros m Hm.
  rewrite !bidx_lt by assumption. reflexivity.
Qed.

(** The entries of what a well-shaped call returns. *)
Lemma forward_entries nf hd theta features hidden :
  dim2 features = nf -> cols hidden = hd -> rows hidden = dim0 features ->
  let self := __init__ nf hd 1 theta in
  exists context w,
    forward self features hidden = Ok (context, T2 w) /\
    rows w = dim0 features /\ cols w = dim1 features /\
    rows context = dim0 features /\ cols context = dim2 features /\
    (forall i j, (i < dim0 features)%nat -> (j < dim1 features)%nat ->
       at2 w i j = exp (score self features hidden i j)
                   / rsum (dim1 features)
                       (fun j' => exp (score self features hidden i j'))) /\
    (forall i k, (i < dim0 features)%nat -> (k < dim2 features)%nat ->
       at2 context i k
       = rsum (dim1 features) (fun j => at2 w i j * at3 features i j k)).
Proof.
  intros Hf Hh Hb self.
  destruct (forward_scores nf hd theta features hidden Hf Hh Hb)
    as (sc & ctx & H0 & H1 & H2 & Hsc & Hctx & Hfw).
  destruct (context_of_shape (softmax1 sc) features H0 H1 H2)
    as (ctx' & Hctx' & Hr & Hc & Hsum).
  assert (ctx' = ctx) by congruence. subst ctx'.
  eexists ctx, _. split; [exact Hfw|]. cbn [rows cols at2].
  split; [exact H0|]. split; [exact H1|]. split; [exact Hr|]. split; [exact Hc|].
  split.
  - intros i j Hi Hj. cbn [softmax1 at3]. rewrite H1, (Hsc i j Hi Hj). f_equal.
    apply rsum_ext. intros j' Hj'. rewrite (Hsc i j' Hi Hj'). reflexivity.
  - intros i k Hi Hk. rewrite (Hsum i k Hi Hk). reflexivity.
Qed.


(** X1. The context is a weighted mean: each of its entries lies between two
    bounds of that entry over the slots of the example. *)
Theorem context_within_feature_bounds nf hd theta features hidden i k lo hi :
  dim2 features = nf -> cols hidden = hd -> rows hidden = dim0 features ->
  (0 < dim1 features)%nat -> (i < dim0 features)%nat -> (k < dim2 features)%nat ->
  (forall j, (j < dim1 features)%nat -> lo <= at3 features i j k <= hi) ->
  exists context w,
    forward (__init__ nf hd 1 theta) features hidden = Ok (context, T2 w) /\
    lo <= at2 context i k <= hi.
Proof.
  intros Hf Hh Hb Hs Hi Hk Hbound.
  destruct (forward_entries nf hd theta features hidden Hf Hh Hb)
    as (ctx & w & Hfw & _ & _ & _ & _ & Hw & Hctx).
  exists ctx, w. split; [exact Hfw|]. rewrite (Hctx i k Hi Hk).
  set (self := __init__ nf hd 1 theta) in *.
  set (Z := rsum (dim1 features)
              (fun j' => exp (score self features hidden i j'))) in *.
  assert (HZ : 0 < Z) by (apply rsum_exp_pos; exact Hs).
  assert (Hpos : forall j, (j < dim1 features)%nat -> 0 <= at2 w i j).
  { intros j Hj. rewrite (Hw i j Hi Hj). apply Rlt_le.
    apply Rdiv_lt_0_compat; [apply exp_pos | exact HZ]. }
  assert (Hone : rsum (dim1 features) (at2 w i) = 1).
  { rewrite (rsum_ext _ _ (fun j => exp (score self features hidden i j) / Z))
      by (intros j Hj; apply (Hw i j Hi Hj)).
    rewrite rsum_div. apply Rdiv_diag. lra. }
  split.
  - replace lo with (rsum (dim1 features) (fun j => at2 w i j * lo))
      by (rewrite rsum_scale, Hone; ring).
    apply rsum_le. intros j Hj.
    apply Rmult_le_compat_l; [apply Hpos; exact Hj | apply Hbound; exact Hj].
  - replace hi with (rsum (dim1 features) (fun j => at2 w i j * hi))
      by (rewrite rsum_scale, Hone; ring).
    apply rsum_le. intros j Hj.
    apply Rmult_le_compat_l; [apply Hpos; exact Hj | apply Hbound; exact Hj].
Qed.

Lemma context_within_feature_bounds_witness :
  exists context w,
    forward (__init__ 2 1 1 SmallScorer.theta) SmallScorer.features SmallScorer.hidden
    = Ok (context, T2 w) /\
    1 <= at2 context 0 0 <= 3.
Proof.
  refine (context_within_feature_bounds 2 1 SmallScorer.theta SmallScorer.features
            SmallScorer.hidden 0 0 1 3 eq_refl eq_refl eq_refl _ _ _ _).
  - simpl. lia.
  - simpl. lia.
  - simpl. lia.
  - intros j Hj. simpl in Hj.
    destruct j as [|[|j]]; [simpl; lra | simpl; lra | lia].
Defined.

(** X2. The bias of the layer [v_a] has no influence on what [forward]
    returns: two scorers that differ in this bias only return the same
    weights and the same context. *)
Theorem v_a_bias_has_no_influence nf hd theta b' features hidden :
  dim2 features = nf -> cols hidden = hd -> rows hidden = dim0 features ->
  let theta' :=
    {| theta_W := theta_W theta; theta_U := theta_U theta;
       theta_v := {| p_weight := p_weight (theta_v theta); p_bias := b' |} |} in
  exists context w context' w',
    forward (__init__ nf hd 1 theta) features hidden = Ok (context, T2 w) /\
    forward (__init__ nf hd 1 theta') features hidden = Ok (context', T2 w') /\
    (forall i j, (i < dim0 features)%nat -> (j < dim1 features)%nat ->
       at2 w' i j = at2 w i j) /\
    (forall i k, (i < dim0 features)%nat -> (k < dim2 features)%nat ->
       at2 context' i k = at2 context i k).
Proof.
  intros Hf Hh Hb theta'.
  destruct (forward_entries nf hd theta features hidden Hf Hh Hb)
    as (ctx & w & Hfw & _ & _ & _ & _ & Hw & Hctx).
  destruct (forward_entries nf hd theta' features hidden Hf Hh Hb)
    as (ctx' & w' & Hfw' & _ & _ & _ & _ & Hw' & Hctx').
  exists ctx, w, ctx', w'. split; [exact Hfw|]. split; [exact Hfw'|].
  set (d := b' 0%nat - p_bias (theta_v theta) 0%nat).
  assert (Hsc : forall i j,
            score (__init__ nf hd 1 theta') features hidden i j
            = score (__init__ nf hd 1 theta) features hidden i j + d).
  { intros i j. unfold score, projected, d. simpl. ring. }
  assert (Hweights : forall i j, (i < dim0 features)%nat ->
            (j < dim1 features)%nat -> at2 w' i j = at2 w i j).
  { intros i j Hi Hj. rewrite (Hw' i j Hi Hj), (Hw i j Hi Hj).
    rewrite (rsum_ext _ _
               (fun j' => exp (score (__init__ nf hd 1 theta) features hidden i j')
                          * exp d))
      by (intros j' _; rewrite Hsc, exp_plus; reflexivity).
    rewrite rsum_scale, Hsc, exp_plus.
    assert (0 < rsum (dim1 features)
                  (fun j' => exp (score (__init__ nf hd 1 theta) features hidden i j')))
      by (apply rsum_exp_pos; lia).
    pose proof (exp_pos d). field. split; lra. }
  split; [exact Hweights|].
  intros i k Hi Hk. rewrite (Hctx' i k Hi Hk), (Hctx i k Hi Hk).
  apply rsum_ext. intros j Hj. rewrite (Hweights i j Hi Hj). reflexivity.
Qed.

Lemma v_a_bias_has_no_influence_witness :
  exists context w context' w',
    forward (__init__ 2 1 1 SmallScorer.theta) SmallBatch.pair SmallBatch.two
    = Ok (context, T2 w) /\
    forward (__init__ 2 1 1
               {| theta_W := SmallScorer.zero; theta_U := SmallScorer.zero;
                  theta_v := {| p_weight := fun _ _ => 0; p_bias := SmallBatch.shifted |} |})
      SmallBatch.pair SmallBatch.two
    = Ok (context', T2 w') /\
    (forall i j, (i < 2)%nat -> (j < 2)%nat -> at2 w' i j = at2 w i j) /\
    (forall i k, (i < 2)%nat -> (k < 2)%nat -> at2 context' i k = at2 context i k).
Proof.
  exact (v_a_bias_has_no_influence 2 1 SmallScorer.theta SmallBatch.shifted
           SmallBatch.pair SmallBatch.two eq_refl eq_refl eq_refl).
Defined.

(** X3. Two slots of an example that hold the same feature vector receive
    the same weight: the scorer does not see the position of a slot. *)
Theorem equal_slots_equal_weights nf hd theta features hidden i j j' :
  dim2 features = nf -> cols hidden = hd -> rows hidden = dim0 features ->
  (i < dim0 features)%nat -> (j < dim1 features)%nat -> (j' < dim1 features)%nat ->
  (forall k, (k < dim2 features)%nat -> at3 features i j k = at3 features i j' k) ->
  exists context w,
    forward (__init__ nf hd 1 theta) features hidden = Ok (context, T2 w) /\
    at2 w i j = at2 w i j'.
Proof.
  intros Hf Hh Hb Hi Hj Hj' Hsame.
  destruct (forward_entries nf hd theta features hidden Hf Hh Hb)
    as (ctx & w & Hfw & _ & _ & _ & _ & Hw & _).
  exists ctx, w. split; [exact Hfw|].
  rewrite (Hw i j Hi Hj), (Hw i j' Hi Hj'). f_equal. f_equal.
  unfold score, projected. simpl. f_equal. apply rsum_ext. intros m _.
  f_equal. f_equal. f_equal. f_equal. apply rsum_ext. intros n Hn.
  rewrite Hsame by (rewrite Hf; exact Hn). reflexivity.
Qed.

Lemma equal_slots_equal_weights_witness :
  exists context w,
    forward (__init__ 2 1 1 SmallScorer.theta) SmallBatch.other SmallScorer.hidden
    = Ok (context, T2 w) /\
    at2 w 0 0 = at2 w 0 1.
Proof.
  refine (equal_slots_equal_weights 2 1 SmallScorer.theta SmallBatch.other
            SmallScorer.hidden 0 0 1 eq_refl eq_refl eq_refl _ _ _ _).
  - simpl. lia.
  - simpl. lia.
  - simpl. lia.
  - intros k _. reflexivity.
Defined.


(** X4. The examples of a batch do not interact: two calls whose inputs
    agree on the example [i] return the same weights and the same context
    for this example, whatever the other examples are. *)
Theorem examples_do_not_interact nf hd theta features1 hidden1 features2 hidden2 i :
  dim2 features1 = nf -> cols hidden1 = hd -> rows hidden1 = dim0 features1 ->
  dim2 features2 = nf -> cols hidden2 = hd -> rows hidden2 = dim0 features2 ->
  dim1 features1 = dim1 features2 ->
  (i < dim0 features1)%nat -> (i < dim0 features2)%nat ->
  (forall j k, (j < dim1 features1)%nat -> (k < nf)%nat ->
     at3 features1 i j k = at3 features2 i j k) ->
  (forall m, (m < hd)%nat -> at2 hidden1 i m = at2 hidden2 i m) ->
  exists context1 w1 context2 w2,
    forward (__init__ nf hd 1 theta) features1 hidden1 = Ok (context1, T2 w1) /\
    forward (__init__ nf hd 1 theta) features2 hidden2 = Ok (context2, T2 w2) /\
    (forall j, (j < dim1 features1)%nat -> at2 w1 i j = at2 w2 i j) /\
    (forall k, (k < nf)%nat -> at2 context1 i k = at2 context2 i k).
Proof.
  intros Hf1 Hh1 Hb1 Hf2 Hh2 Hb2 Hs Hi1 Hi2 Hfeat Hhid.
  destruct (forward_entries nf hd theta features1 hidden1 Hf1 Hh1 Hb1)
    as (ctx1 & w1 & Hfw1 & _ & _ & _ & _ & Hw1 & Hctx1).
  destruct (forward_entries nf hd theta features2 hidden2 Hf2 Hh2 Hb2)
    as (ctx2 & w2 & Hfw2 & _ & _ & _ & _ & Hw2 & Hctx2).
  exists ctx1, w1, ctx2, w2. split; [exact Hfw1|]. split; [exact Hfw2|].
  assert (Hsc : forall j, (j < dim1 features1)%nat ->
            score (__init__ nf hd 1 theta) features1 hidden1 i j
            = score (__init__ nf hd 1 theta) features2 hidden2 i j).
  { intros j Hj. unfold score, projected. simpl. f_equal.
    apply rsum_ext. intros m Hm. f_equal. f_equal. f_equal.
    - f_equal. apply rsum_ext. intros n Hn.
      rewrite (Hfeat j n Hj Hn). reflexivity.
    - f_equal. apply rsum_ext. intros n Hn.
      rewrite (Hhid n Hn). reflexivity. }
  assert (Hweights : forall j, (j < dim1 features1)%nat -> at2 w1 i j = at2 w2 i j).
  { intros j Hj. rewrite (Hw1 i j Hi1 Hj), (Hw2 i j Hi2) by (rewrite <- Hs; exact Hj).
    rewrite <- Hs, (Hsc j Hj). f_equal.
    apply rsum_ext. intros j' Hj'. rewrite (Hsc j' Hj'). reflexivity. }
  split; [exact Hweights|].
  intros k Hk.
  rewrite (Hctx1 i k Hi1) by (rewrite Hf1; exact Hk).
  rewrite (Hctx2 i k Hi2) by (rewrite Hf2; exact Hk).
  rewrite <- Hs. apply rsum_ext. intros j Hj.
  rewrite (Hweights j Hj), (Hfeat j k Hj Hk). reflexivity.
Qed.

(** The batch [pair] with its second example replaced. *)
Lemma examples_do_not_interact_witness :
  exists context1 w1 context2 w2,
    forward (__init__ 2 1 1 SmallScorer.theta) SmallBatch.pair SmallBatch.two
    = Ok (context1, T2 w1) /\
    forward (__init__ 2 1 1 SmallScorer.theta)
      {| dim0 := 2; dim1 := 2; dim2 := 2;
         at3 := fun i j k => if (i =? 0)%nat then at3 SmallBatch.pair i j k else 9 |}
      SmallBatch.two
    = Ok (context2, T2 w2) /\
    (forall j, (j < 2)%nat -> at2 w1 0 j = at2 w2 0 j) /\
    (forall k, (k < 2)%nat -> at2 context1 0 k = at2 context2 0 k).
Proof.
  refine (examples_do_not_interact 2 1 SmallScorer.theta SmallBatch.pair SmallBatch.two
            {| dim0 := 2; dim1 := 2; dim2 := 2;
               at3 := fun i j k => if (i =? 0)%nat then at3 SmallBatch.pair i j k else 9 |}
            SmallBatch.two 0
            eq_refl eq_refl eq_refl eq_refl eq_refl eq_refl eq_refl _ _ _ _).
  - simpl. lia.
  - simpl. lia.
  - intros j k _ _. reflexivity.
  - intros m _. reflexivity.
Defined.

(** X5. The batch sizes of the features and of the hidden state are
    broadcast: when they are equal, or one of them is [1], the call returns,
    with weights and a context for the larger batch. *)
Theorem batch_sizes_are_broadcast nf hd theta features hidden b :
  dim2 features = nf -> cols hidden = hd ->
  broadcast_dim (dim0 features) (rows hidden) = Ok b ->
  exists context w,
    forward (__init__ nf hd 1 theta) features hidden = Ok (context, T2 w) /\
    rows w = b /\ cols w = dim1 features /\
    rows context = b /\ cols context = dim2 features.
Proof.
  intros <- <- Hb.
  unfold forward, __init__, linear, nn_Linear; simpl.
  rewrite !Nat.eqb_refl. simpl.
  unfold add, pointwise; simpl.
  rewrite Hb, broadcast_dim_one_r, broadcast_dim_same. simpl.
  rewrite Nat.eqb_refl. simpl.
  unfold context_of, mul, pointwise. simpl.
  assert (Hbb : broadcast_dim b (dim0 features) = Ok b).
  { unfold broadcast_dim in *.
    destruct (Nat.eqb_spec (dim0 features) (rows hidden)) as [E|E].
    - inversion Hb; subst. rewrite Nat.eqb_refl. reflexivity.
    - destruct (Nat.eqb_spec (dim0 features) 1) as [E1|E1].
      + inversion Hb; subst. rewrite E1.
        destruct (rows hidden =? 1)%nat; reflexivity.
      + destruct (Nat.eqb_spec (rows hidden) 1) as [E2|E2]; [|discriminate].
        inversion Hb; subst. rewrite Nat.eqb_refl. reflexivity. }
  rewrite Hbb, broadcast_dim_same, broadcast_dim_one_l. simpl.
  eexists _, _. split; [reflexivity|]. simpl. auto.
Qed.

Lemma batch_sizes_are_broadcast_witness :
  exists context w,
    forward (__init__ 2 1 1 SmallScorer.theta) SmallBatch.pair SmallBatch.one
    = Ok (context, T2 w) /\
    rows w = 2%nat /\ cols w = 2%nat /\ rows context = 2%nat /\ cols context = 2%nat.
Proof.
  exact (batch_sizes_are_broadcast 2 1 SmallScorer.theta SmallBatch.pair
           SmallBatch.one 2 eq_refl eq_refl eq_refl).
Defined.

(** X6. When the two batch sizes differ and neither is [1], the call
    raises. *)
Theorem batch_mismatch_raises nf hd theta features hidden :
  dim2 features = nf -> cols hidden = hd ->
  dim0 features <> rows hidden -> dim0 features <> 1%nat -> rows hidden <> 1%nat ->
  forward (__init__ nf hd 1 theta) features hidden = Raise RuntimeError.
Proof.
  intros <- <- Hne H1 H2.
  unfold forward, __init__, linear, nn_Linear; simpl.
  rewrite !Nat.eqb_refl. simpl.
  unfold add, pointwise, broadcast_dim; simpl.
  destruct (Nat.eqb_spec (dim0 features) (rows hidden)); [contradiction|].
  destruct (Nat.eqb_spec (dim0 features) 1); [contradiction|].
  destruct (Nat.eqb_spec (rows hidden) 1); [contradiction|].
  reflexivity.
Qed.

Lemma batch_mismatch_raises_witness :
  forward (__init__ 2 1 1 SmallScorer.theta) SmallBatch.pair SmallBatch.three
  = Raise RuntimeError.
Proof.
  refine (batch_mismatch_raises 2 1 SmallScorer.theta SmallBatch.pair
            SmallBatch.three eq_refl eq_refl _ _ _); simpl; lia.
Defined.

(** X7. Features with no slot: the call returns, the weights have no column
    and the context is zero. *)
Theorem no_slot_gives_zero_context nf hd theta features hidden :
  dim2 features = nf -> cols hidden = hd -> rows hidden = dim0 features ->
  dim1 features = 0%nat ->
  exists context w,
    forward (__init__ nf hd 1 theta) features hidden = Ok (context, T2 w) /\
    rows w = dim0 features /\ cols w = 0%nat /\
    rows context = dim0 features /\ cols context = nf /\
    forall i k, (i < dim0 features)%nat -> (k < nf)%nat -> at2 context i k = 0.
Proof.
  intros Hf Hh Hb Hs.
  destruct (forward_entries nf hd theta features hidden Hf Hh Hb)
    as (ctx & w & Hfw & Hr & Hc & Hcr & Hcc & _ & Hctx).
  exists ctx, w. split; [exact Hfw|]. split; [exact Hr|].
  split; [rewrite Hc; exact Hs|]. split; [exact Hcr|].
  split; [rewrite Hcc; exact Hf|].
  intros i k Hi Hk. rewrite (Hctx i k Hi) by (rewrite Hf; exact Hk).
  rewrite Hs. reflexivity.
Qed.

Lemma no_slot_gives_zero_context_witness :
  exists context w,
    forward (__init__ 2 1 1 SmallScorer.theta) SmallBatch.no_slot SmallBatch.two
    = Ok (context, T2 w) /\
    rows w = 2%nat /\ cols w = 0%nat /\
    rows context = 2%nat /\ cols context = 2%nat /\
    forall i k, (i < 2)%nat -> (k < 2)%nat -> at2 context i k = 0.
Proof.
  exact (no_slot_gives_zero_context 2 1 SmallScorer.theta SmallBatch.no_slot
           SmallBatch.two eq_refl eq_refl eq_refl eq_refl).
Defined.

(** X8. A scorer built with an [output_dim] other than [1] raises on
    features whose feature size is neither [1] nor [output_dim], though the
    features and the hidden state have the sizes it was built for: the product
    of the weights with the features cannot be broadcast. *)
Theorem output_dim_must_fit_features nf hd od theta features hidden :
  dim2 features = nf -> cols hidden = hd -> rows hidden = dim0 features ->
  od <> 1%nat -> nf <> 1%nat -> od <> nf ->
  forward (__init__ nf hd od theta) features hidden = Raise RuntimeError.
Proof.
  intros <- <- Hb Hod Hnf Hne.
  unfold forward, __init__, linear, nn_Linear; simpl.
  rewrite !Nat.eqb_refl. simpl.
  unfold add, pointwise; simpl.
  rewrite Hb, broadcast_dim_same, broadcast_dim_one_r, broadcast_dim_same. simpl.
  rewrite Nat.eqb_refl. simpl.
  unfold context_of, mul, pointwise. simpl.
  rewrite !broadcast_dim_same. simpl. unfold broadcast_dim.
  destruct (Nat.eqb_spec od (dim2 features)); [contradiction|].
  destruct (Nat.eqb_spec od 1); [contradiction|].
  destruct (Nat.eqb_spec (dim2 features) 1); [contradiction|].
  reflexivity.
Qed.

Lemma output_dim_must_fit_features_witness :
  forward (__init__ 2 1 3 SmallScorer.theta) SmallBatch.pair SmallBatch.two
  = Raise RuntimeError.
Proof.
  refine (output_dim_must_fit_features 2 1 3 SmallScorer.theta SmallBatch.pair
            SmallBatch.two eq_refl eq_refl eq_refl _ _ _); simpl; lia.
Defined.

(** X9. A scorer built with an [output_dim] that is not [1] and is the
    feature size returns weights of rank three: [squeeze(dim=2)] leaves them
    as they are, with one channel per output. *)
Theorem weights_keep_rank_three nf hd theta features hidden :
  dim2 features = nf -> cols hidden = hd -> rows hidden = dim0 features ->
  nf <> 1%nat ->
  exists context w,
    forward (__init__ nf hd nf theta) features hidden = Ok (context, T3 w) /\
    dim0 w = dim0 features /\ dim1 w = dim1 features /\ dim2 w = nf /\
    rows context = dim0 features /\ cols context = nf.
Proof.
  intros <- <- Hb Hnf.
  unfold forward, __init__, linear, nn_Linear; simpl.
  rewrite !Nat.eqb_refl. simpl.
  unfold add, pointwise; simpl.
  rewrite Hb, broadcast_dim_same, broadcast_dim_one_r, broadcast_dim_same. simpl.
  rewrite Nat.eqb_refl. simpl.
  unfold context_of, mul, pointwise. simpl.
  rewrite !broadcast_dim_same. simpl. unfold squeeze2. simpl.
  destruct (Nat.eqb_spec (dim2 features) 1); [contradiction|].
  eexists _, _. split; [reflexivity|]. simpl. auto.
Qed.

Lemma weights_keep_rank_three_witness :
  exists context w,
    forward (__init__ 2 1 2 SmallScorer.theta) SmallBatch.pair SmallBatch.two
    = Ok (context, T3 w) /\
    dim0 w = 2%nat /\ dim1 w = 2%nat /\ dim2 w = 2%nat /\
    rows context = 2%nat /\ cols context = 2%nat.
Proof.
  refine (weights_keep_rank_three 2 1 SmallScorer.theta SmallBatch.pair
            SmallBatch.two eq_refl eq_refl eq_refl _). simpl. lia.
Defined.

End AttentionMore.

(** ** More on the decoder *)

Section DecoderMore.
Import DecoderLSTM.
Context {Tensor : Type} `{TorchOps Tensor}.
Variable self : DecoderLSTM.t Tensor.

Local Abbreviation prob t := (if (t =? 0)%nat then 0%Q else (1 # 2)%Q).

(** X10. In the loop of [forward], a step whose flip fails is fed the
    embedding of the caption at its own position, whatever the flips of the
    other steps are. *)
Theorem failed_flip_feeds_ground_truth
  embed captions features sample_prob draws h0 c0 t :
  t < size captions 1 -> (0 <= draws 0%nat)%Q ->
  Qltb (draws t) (prob t) = false ->
  exists s,
    forward_loop self embed captions features sample_prob draws h0 c0 = Ok s /\
    nth_error (fed s) t = Some (select1 embed t).
Proof.
  intros Hlen Hdraw Hfail. unfold forward_loop.
  assert (Hseq : seq 0 (size captions 1)
                 = seq 0 t ++ [t] ++ seq (S t) (size captions 1 - S t)).
  { replace (size captions 1) with (t + (1 + (size captions 1 - S t))) at 1 by lia.
    rewrite !seq_app. simpl. repeat f_equal; lia. }
  rewrite Hseq, !steps_app.
  destruct (steps_prefix self embed captions features sample_prob draws h0 c0 t Hdraw)
    as (s1 & Hs1 & Hfed1 & _ & _).
  rewrite Hs1. cbn [steps bind app].
  destruct (step_ground_truth self embed features t (draws t) s1 Hfail)
    as (s2 & Hs2 & Hfed2 & Hw2).
  rewrite Hs2. cbn [steps bind app].
  destruct (steps_bound self embed features draws
              (seq (S t) (size captions 1 - S t)) s2 _ Hw2)
    as (s3 & l & w3 & Hs3 & Hfed3 & _ & _).
  exists s3. split; [exact Hs3|].
  rewrite Hfed3, Hfed2, <- !app_assoc.
  rewrite nth_error_app2 by lia.
  replace (t - length (fed s1)) with 0 by lia. reflexivity.
Qed.

(** The steps [ts] read the embedded captions at the positions [ts] only. *)
Lemma steps_read_their_positions embed1 embed2 features draws ts s :
  (forall u, In u ts -> select1 embed1 u = select1 embed2 u) ->
  steps self embed1 features draws ts s = steps self embed2 features draws ts s.
Proof.
  revert s. induction ts as [|t ts IH]; intros s Hagree; [reflexivity|].
  cbn [steps].
  assert (Hstep : step self embed1 features t (draws t) s
                  = step self embed2 features t (draws t) s).
  { unfold step. rewrite (Hagree t) by (left; reflexivity). reflexivity. }
  rewrite Hstep.
  destruct (step self embed2 features t (draws t) s) as [s'|e]; [|reflexivity].
  cbn [bind]. apply IH. intros u Hu. apply Hagree. right. exact Hu.
Qed.

(** X11. The loop of [forward] does not look ahead: two embedded captions
    that agree up to the position [t] lead to the same hidden state, outputs
    and attention weights after the steps [0] to [t], and the two complete
    runs feed the same inputs to these steps. *)
Theorem forward_does_not_look_ahead
  embed1 embed2 captions features sample_prob draws h0 c0 t :
  t < size captions 1 -> (0 <= draws 0%nat)%Q ->
  (forall u, u <= t -> select1 embed1 u = select1 embed2 u) ->
  steps self embed1 features draws (seq 0 (S t))
    (entry self captions features sample_prob h0 c0)
  = steps self embed2 features draws (seq 0 (S t))
      (entry self captions features sample_prob h0 c0) /\
  exists s1 s2,
    forward_loop self embed1 captions features sample_prob draws h0 c0 = Ok s1 /\
    forward_loop self embed2 captions features sample_prob draws h0 c0 = Ok s2 /\
    firstn (S t) (fed s1) = firstn (S t) (fed s2).
Proof.
  intros Hlen Hdraw Hagree.
  assert (Hsame : steps self embed1 features draws (seq 0 (S t))
                    (entry self captions features sample_prob h0 c0)
                  = steps self embed2 features draws (seq 0 (S t))
                      (entry self captions features sample_prob h0 c0)).
  { apply steps_read_their_positions. intros u Hu. apply in_seq in Hu.
    apply Hagree. lia. }
  split; [exact Hsame|].
  unfold forward_loop.
  assert (Hseq : seq 0 (size captions 1)
                 = seq 0 (S t) ++ seq (S t) (size captions 1 - S t)).
  { replace (size captions 1) with (S t + (size captions 1 - S t)) at 1 by lia.
    apply seq_app. }
  rewrite Hseq, !steps_app, <- Hsame.
  destruct (steps_prefix self embed1 captions features sample_prob draws h0 c0
              (S t) Hdraw) as (s & Hs & Hfed & _ & Hbound).
  destruct Hbound as (_ & w & Hw); [lia|].
  rewrite Hs. cbn [bind].
  destruct (steps_bound self embed1 features draws
              (seq (S t) (size captions 1 - S t)) s w Hw)
    as (s1 & l1 & w1 & Hs1 & Hfed1 & _ & _).
  destruct (steps_bound self embed2 features draws
              (seq (S t) (size captions 1 - S t)) s w Hw)
    as (s2 & l2 & w2 & Hs2 & Hfed2 & _ & _).
  exists s1, s2. split; [exact Hs1|]. split; [exact Hs2|].
  rewrite Hfed1, Hfed2, !firstn_app, Hfed, Nat.sub_diag. simpl.
  rewrite !app_nil_r. reflexivity.
Qed.

(** *** The decoding loop *)

Lemma while_true_unfold features max_sentence s :
  while_true self features max_sentence s =
  if finished max_sentence (emit self features s) then emit self features s
  else while_true self features max_sentence (emit self features s).
Proof.
  funelim (while_true self features max_sentence s).
  - rewrite e. reflexivity.
  - destruct (finished max_sentence (emit self features s)); [congruence|].
    reflexivity.
Qed.

(** The loop ends on a state that [emit] returned and that passes the test of
    the [break]. *)
Lemma while_true_exit features max_sentence s :
  exists s0,
    while_true self features max_sentence s = emit self features s0 /\
    finished max_sentence (emit self features s0) = true.
Proof.
  funelim (while_true self features max_sentence s).
  - exists s. split; [reflexivity | exact e].
  - match goal with IH : exists _, _ |- _ => exact IH end.
Qed.

(** The loop appends to the sentence and to the weights. *)
Lemma while_true_extends features max_sentence s :
  exists l lw,
    sentence (while_true self features max_sentence s) = sentence s ++ l /\
    weights (while_true self features max_sentence s) = weights s ++ lw.
Proof.
  funelim (while_true self features max_sentence s).
  - destruct (emit_spec self features s) as (tok & aw & Hsen & Hw & _).
    exists [tok], [aw]. auto.
  - match goal with IH : exists _, _ |- _ =>
      destruct IH as (l & lw & Hl & Hlw) end.
    destruct (emit_spec self features s) as (tok & aw & Hsen & Hw & _).
    exists (tok :: l), (aw :: lw).
    rewrite Hl, Hlw, Hsen, Hw, <- !app_assoc. auto.
Qed.


(** X12. A decoder whose output layer never prefers the end token returns
    exactly [max_sentence] tokens, and as many weights, for every
    [max_sentence] of at least one. *)
Theorem never_end_fills_the_bound features max_sentence h0 c0 :
  (forall x, top1 (index0 (log_softmax1 (fc self x))) <> 1%Z) ->
  (1 <= max_sentence)%Z ->
  let '(sentence, weights) := greedy_loop self features max_sentence h0 c0 in
  Z.of_nat (length sentence) = max_sentence /\ length weights = length sentence.
Proof.
  intros Hnever Hms. unfold greedy_loop.
  match goal with |- context [while_true self features max_sentence ?s0] =>
    set (start := s0) end.
  destruct (while_true_spec self features max_sentence start)
    as (l & Hl & _ & Hw & Hmax & _ & _).
  destruct (while_true_exit features max_sentence start) as (s0 & Hs0 & Hfin).
  simpl in Hl, Hw, Hmax.
  assert (Htok : input_word (emit self features s0) <> 1%Z).
  { unfold emit.
    destruct (attention self features (g_h s0)) as [context attention_weight].
    destruct (lstm self _ _) as [h' c']. simpl. apply Hnever. }
  rewrite <- Hs0 in Hfin, Htok. unfold finished in Hfin.
  apply orb_true_iff in Hfin. destruct Hfin as [Hfin|Hfin];
    [|apply Z.eqb_eq in Hfin; contradiction].
  rewrite Z.geb_leb in Hfin. apply Z.leb_le in Hfin.
  rewrite Hw. rewrite Hl in *. split; lia.
Qed.

(** X13. A decoder whose output layer always prefers the end token returns
    the sentence [[1]] and the attention weights of the first step, for every
    [max_sentence]. *)
Theorem always_end_stops_at_once features max_sentence h0 c0 :
  (forall x, top1 (index0 (log_softmax1 (fc self x))) = 1%Z) ->
  greedy_loop self features max_sentence h0 c0
  = ([1%Z], [snd (attention self features h0)]).
Proof.
  intros Halways. unfold greedy_loop.
  match goal with |- context [while_true self features max_sentence ?s0] =>
    set (start := s0) end.
  rewrite while_true_unfold.
  assert (Hemit : sentence (emit self features start) = [1%Z] /\
                  weights (emit self features start)
                  = [snd (attention self features h0)] /\
                  input_word (emit self features start) = 1%Z).
  { unfold emit, start. simpl.
    destruct (attention self features h0) as [context attention_weight].
    destruct (lstm self _ _) as [h' c']. simpl.
    rewrite Halways. auto. }
  destruct Hemit as (Hsen & Hw & Hin).
  unfold finished. rewrite Hin, Z.eqb_refl, orb_true_r.
  rewrite Hsen, Hw. reflexivity.
Qed.

(** A state that passes the test of the [break] for a bound passes it for
    every smaller bound. *)
Lemma finished_mono m m' (s : @decoding Tensor) :
  (m <= m')%Z -> finished m' s = true -> finished m s = true.
Proof.
  unfold finished. intros Hle Hfin.
  apply orb_true_iff in Hfin. apply orb_true_iff.
  destruct Hfin as [Hfin|Hfin]; [left|right; exact Hfin].
  rewrite Z.geb_leb in *. apply Z.leb_le in Hfin. apply Z.leb_le. lia.
Qed.

Lemma while_true_prefix features max_sentence m' s :
  (max_sentence <= m')%Z ->
  exists l lw,
    sentence (while_true self features m' s)
    = sentence (while_true self features max_sentence s) ++ l /\
    weights (while_true self features m' s)
    = weights (while_true self features max_sentence s) ++ lw.
Proof.
  intros Hle. funelim (while_true self features max_sentence s).
  - rewrite (while_true_unfold features m' s).
    destruct (finished m' (emit self features s)).
    + exists [], []. rewrite !app_nil_r. auto.
    + apply while_true_extends.
  - rewrite (while_true_unfold features m' s).
    destruct (finished m' (emit self features s)) eqn:Hfin.
    + apply (finished_mono max_sentence m') in Hfin; [congruence | exact Hle].
    + match goal with IH : forall _, _ -> exists _, _ |- _ => exact (IH m' Hle) end.
Qed.

(** X14. Raising [max_sentence] only extends what the loop returns: the
    sentence and the weights for a bound are prefixes of those for a larger
    bound. *)
Theorem larger_bound_extends_sentence features m m' h0 c0 :
  (m <= m')%Z ->
  exists l lw,
    fst (greedy_loop self features m' h0 c0)
    = fst (greedy_loop self features m h0 c0) ++ l /\
    snd (greedy_loop self features m' h0 c0)
    = snd (greedy_loop self features m h0 c0) ++ lw.
Proof.
  intros Hle. unfold greedy_loop. cbn [fst snd].
  apply while_true_prefix. exact Hle.
Qed.

End DecoderMore.

Section DecoderMoreExamples.
Import DecoderLSTM Small.

(** Draws of [0.7]: no step samples. *)
Lemma failed_flip_feeds_ground_truth_witness :
  exists s,
    forward_loop always_end [0; 2]%Z [0; 2]%Z [1; 2]%Z 0%Q (fun _ => 7 # 10)
      [0]%Z [0]%Z = Ok s /\
    nth_error (fed s) 1 = Some [2%Z].
Proof.
  refine (failed_flip_feeds_ground_truth always_end [0; 2]%Z [0; 2]%Z [1; 2]%Z
            0%Q (fun _ => 7 # 10) [0]%Z [0]%Z 1 _ _ _).
  - simpl. lia.
  - unfold Qle. simpl. lia.
  - reflexivity.
Defined.

(** Two captions of three positions that differ in the last one. *)
Lemma forward_does_not_look_ahead_witness :
  steps always_end [0; 2; 1]%Z [1; 2]%Z (fun _ => 3 # 10) (seq 0 2)
    (entry always_end [0; 2; 1]%Z [1; 2]%Z 0%Q [0]%Z [0]%Z)
  = steps always_end [0; 2; 2]%Z [1; 2]%Z (fun _ => 3 # 10) (seq 0 2)
      (entry always_end [0; 2; 1]%Z [1; 2]%Z 0%Q [0]%Z [0]%Z) /\
  exists s1 s2,
    forward_loop always_end [0; 2; 1]%Z [0; 2; 1]%Z [1; 2]%Z 0%Q
      (fun _ => 3 # 10) [0]%Z [0]%Z = Ok s1 /\
    forward_loop always_end [0; 2; 2]%Z [0; 2; 1]%Z [1; 2]%Z 0%Q
      (fun _ => 3 # 10) [0]%Z [0]%Z = Ok s2 /\
    firstn 2 (fed s1) = firstn 2 (fed s2).
Proof.
  refine (forward_does_not_look_ahead always_end [0; 2; 1]%Z [0; 2; 2]%Z
            [0; 2; 1]%Z [1; 2]%Z 0%Q (fun _ => 3 # 10) [0]%Z [0]%Z 1 _ _ _).
  - simpl. lia.
  - unfold Qle. simpl. lia.
  - intros u Hu. destruct u as [|[|u]]; [reflexivity | reflexivity | lia].
Defined.

Lemma never_end_fills_the_bound_witness :
  let '(sentence, weights) := greedy_loop always_word [1; 2]%Z 3 [0]%Z [0]%Z in
  Z.of_nat (length sentence) = 3%Z /\ length weights = length sentence.
Proof.
  refine (never_end_fills_the_bound always_word [1; 2]%Z 3 [0]%Z [0]%Z _ _).
  - intros x. simpl. discriminate.
  - lia.
Defined.

Lemma always_end_stops_at_once_witness :
  greedy_loop always_end [1; 2]%Z 20 [0]%Z [0]%Z = ([1%Z], [[1; 1]%Z]).
Proof.
  refine (always_end_stops_at_once always_end [1; 2]%Z 20 [0]%Z [0]%Z _).
  intros x. reflexivity.
Defined.

Lemma larger_bound_extends_sentence_witness :
  exists l lw,
    fst (greedy_loop always_word [1; 2]%Z 4 [0]%Z [0]%Z)
    = fst (greedy_loop always_word [1; 2]%Z 2 [0]%Z [0]%Z) ++ l /\
    snd (greedy_loop always_word [1; 2]%Z 4 [0]%Z [0]%Z)
    = snd (greedy_loop always_word [1; 2]%Z 2 [0]%Z [0]%Z) ++ lw.
Proof.
  refine (larger_bound_extends_sentence always_word [1; 2]%Z 2 4 [0]%Z [0]%Z _).
  lia.
Defined.

End DecoderMoreExamples.

(** ** More on the embedder *)

Section EmbedderMore.
Import CaptionEmbedder.
Context {DataFrame Series Model Sentences : Type}.
Variable tokenize_df : DataFrame -> DataFrame.
Variable make_dict : Series -> Z -> gmap string Z.
Variable indexize_df : DataFrame -> gmap string Z -> DataFrame.
Variable getitem : DataFrame -> string -> Series.
Variable Word2Vec : Sentences -> Z -> Z -> Z -> Z -> Model.
Variable FastText : Sentences -> Z -> Z -> Z -> Z -> Model.
Variable split_each : Series -> Sentences.

(** X15. [fit] with a method that is neither ['w2v'] nor ['fast'] trains no
    model and raises no error: it does what [process_df] does, so the model
    of the embedder stays what it was. *)
Theorem fit_unknown_method_trains_nothing (self : t) (df : DataFrame)
  (method : string) :
  method <> "w2v" -> method <> "fast" ->
  fit tokenize_df make_dict indexize_df getitem Word2Vec FastText split_each
    self df method
  = process_df tokenize_df make_dict indexize_df getitem self df /\
  model (fst (fit tokenize_df make_dict indexize_df getitem Word2Vec FastText
                split_each self df method))
  = model self.
Proof.
  intros Hw Hf. unfold fit, process_df.
  destruct (String.eqb_spec method "w2v") as [E|_]; [contradiction|].
  destruct (String.eqb_spec method "fast") as [E|_]; [contradiction|].
  split; reflexivity.
Qed.

End EmbedderMore.

Section EmbedderMoreExamples.
Import CaptionEmbedder SmallEmbedder.

Lemma fit_unknown_method_trains_nothing_witness :
  fit (fun df => df) small_make_dict (fun df _ => df) (fun df _ => df)
    (fun (_ : list (list string)) _ _ _ _ => tt)
    (fun (_ : list (list string)) _ _ _ _ => tt)
    (fun s => s) (__init__ 256 3 3 1) captions "glove"
  = process_df (fun df => df) small_make_dict (fun df _ => df) (fun df _ => df)
      (__init__ 256 3 3 1) captions /\
  model (fst (fit (fun df => df) small_make_dict (fun df _ => df) (fun df _ => df)
                (fun (_ : list (list string)) _ _ _ _ => tt)
                (fun (_ : list (list string)) _ _ _ _ => tt)
                (fun s => s) (__init__ 256 3 3 1) captions "glove"))
  = None.
Proof.
  refine (fit_unknown_method_trains_nothing (fun df => df) small_make_dict
            (fun df _ => df) (fun df _ => df)
            (fun (_ : list (list string)) _ _ _ _ => tt)
            (fun (_ : list (list string)) _ _ _ _ => tt)
            (fun s => s) (__init__ 256 3 3 1) captions "glove" _ _);
    discriminate.
Defined.

End EmbedderMoreExamples.
